(** * SiteGenie: the niche scoring and recommendation pipeline

    A shallow embedding of [src/nicheAnalysis.js] (keyword ingestion,
    candidate generation, the three scorers, filter / rank / limit and the
    optional persistence step) and of [scoreDomain] from the domain
    registration module, together with the properties the specification
    states about them.

    Conventions of the embedding.
    - A JavaScript number is a [number]: a real, one of the two infinities,
      or NaN.  Arithmetic on finite values is exact: the rounding of IEEE
      doubles, overflow to the infinities and the sign of zero are
      abstracted.  What the code does at [log10 0], [0 / 0] or
      [Infinity - Infinity] is kept.
    - A JavaScript string is a [string]; [length] counts its code units.
    - Asynchronous code runs in a monad [M] of state and exceptions.  The
      collaborators (HTTP endpoints, [Math.random], the clock, the database
      client) are oracles collected in a [world]; every request made to one
      of them is recorded in the [trace] of the state.  Concurrent
      operations started by [Promise.all] are taken to complete in the
      order they were started.  Logging is not modelled. *)

From Stdlib Require Import Reals Lra Lia List String Ascii ZArith Bool.
From Stdlib Require Import Permutation Sorted QArith Qminmax.
From Stdlib Require Import Qround Qreals DecimalString.
Import ListNotations.

Open Scope string_scope.
Open Scope R_scope.

(* ================================================================= *)
(** ** JavaScript numbers *)

Module Num.

Inductive number : Type :=
| Fin (r : R)
| PosInf
| NegInf
| NaN.

Definition Rltb (a b : R) : bool := if Rlt_dec a b then true else false.
Definition Rleb (a b : R) : bool := if Rle_dec a b then true else false.
Definition Reqb (a b : R) : bool := if Req_dec_T a b then true else false.

Definition neg (a : number) : number :=
  match a with
  | Fin r => Fin (- r)
  | PosInf => NegInf
  | NegInf => PosInf
  | NaN => NaN
  end.

(** [a + b] *)
Definition add (a b : number) : number :=
  match a, b with
  | NaN, _ | _, NaN => NaN
  | Fin x, Fin y => Fin (x + y)
  | PosInf, NegInf | NegInf, PosInf => NaN
  | PosInf, _ | _, PosInf => PosInf
  | NegInf, _ | _, NegInf => NegInf
  end.

(** [a - b] *)
Definition sub (a b : number) : number := add a (neg b).

(** An infinity multiplied by the finite [r]: the sign follows [r], and
    [Infinity * 0] is NaN. *)
Definition scale_inf (positive : bool) (r : R) : number :=
  if Rltb 0 r then (if positive then PosInf else NegInf)
  else if Rltb r 0 then (if positive then NegInf else PosInf)
  else NaN.

(** [a * b] *)
Definition mul (a b : number) : number :=
  match a, b with
  | NaN, _ | _, NaN => NaN
  | Fin x, Fin y => Fin (x * y)
  | PosInf, Fin y | Fin y, PosInf => scale_inf true y
  | NegInf, Fin y | Fin y, NegInf => scale_inf false y
  | PosInf, PosInf | NegInf, NegInf => PosInf
  | PosInf, NegInf | NegInf, PosInf => NegInf
  end.

(** [a / b]; a finite non-zero value divided by zero is an infinity of its
    sign, and [0 / 0] is NaN. *)
Definition div (a b : number) : number :=
  match a, b with
  | NaN, _ | _, NaN => NaN
  | Fin x, Fin y => if Reqb y 0 then scale_inf true x else Fin (x / y)
  | Fin _, _ => Fin 0
  | PosInf, Fin y => if Rltb y 0 then NegInf else PosInf
  | NegInf, Fin y => if Rltb y 0 then PosInf else NegInf
  | _, _ => NaN
  end.

(** [a < b]; every comparison with NaN is false. *)
Definition lt (a b : number) : bool :=
  match a, b with
  | NaN, _ | _, NaN => false
  | Fin x, Fin y => Rltb x y
  | _, NegInf => false
  | PosInf, _ => false
  | NegInf, _ => true
  | Fin _, PosInf => true
  end.

(** [a <= b] *)
Definition le (a b : number) : bool :=
  match a, b with
  | NaN, _ | _, NaN => false
  | Fin x, Fin y => Rleb x y
  | NegInf, _ => true
  | _, PosInf => true
  | _, NegInf => false
  | PosInf, _ => false
  end.

Definition gt (a b : number) : bool := lt b a.
Definition ge (a b : number) : bool := le b a.

(** [Math.min(a, b)] and [Math.max(a, b)]: NaN when an argument is NaN. *)
Definition Math_min (a b : number) : number :=
  match a, b with
  | NaN, _ | _, NaN => NaN
  | NegInf, _ | _, NegInf => NegInf
  | PosInf, x | x, PosInf => x
  | Fin x, Fin y => Fin (Rmin x y)
  end.

Definition Math_max (a b : number) : number :=
  match a, b with
  | NaN, _ | _, NaN => NaN
  | PosInf, _ | _, PosInf => PosInf
  | NegInf, x | x, NegInf => x
  | Fin x, Fin y => Fin (Rmax x y)
  end.

(** [Math.log10(a)]: [-Infinity] at zero, NaN below zero. *)
Definition Math_log10 (a : number) : number :=
  match a with
  | Fin r =>
      if Rltb 0 r then Fin (ln r / ln 10)
      else if Rltb r 0 then NaN
      else NegInf
  | PosInf => PosInf
  | NegInf | NaN => NaN
  end.

(** [Math.floor(a)] *)
Definition Math_floor (a : number) : number :=
  match a with
  | Fin r => Fin (IZR (Int_part r))
  | _ => a
  end.

(** [parseFloat(a.toFixed(2))]: the nearest multiple of 1/100, a tie going
    away from zero; [toFixed] prints values of magnitude 1e21 and above,
    the infinities and NaN as [String(a)], which parses back to [a]. *)
Definition toFixed2 (a : number) : number :=
  match a with
  | Fin r =>
      if Rleb (10 ^ 21) (Rabs r) then Fin r
      else if Rltb r 0 then Fin (- (IZR (Int_part (- r * 100 + / 2)) / 100))
      else Fin (IZR (Int_part (r * 100 + / 2)) / 100)
  | _ => a
  end.

(** The number of a count (an array length, a string length). *)
Definition of_nat (n : nat) : number := Fin (INR n).

(** The spec's [clamp(lo, hi, x)] on finite bounds. *)
Definition clamp (lo hi : R) (x : number) : number :=
  if lt x (Fin lo) then Fin lo
  else if gt x (Fin hi) then Fin hi
  else x.

(** A finite number within [lo, hi]. *)
Definition within (lo hi : R) (x : number) : Prop :=
  exists r, x = Fin r /\ lo <= r <= hi.

End Num.
Import Num.

(* ================================================================= *)
(** ** JavaScript strings *)

(** [s.includes(sub)] *)
Fixpoint includes (s sub : string) : bool :=
  if String.prefix sub s then true
  else match s with
       | EmptyString => false
       | String _ rest => includes rest sub
       end.

(** Truthiness of an optional string (an environment variable, an option
    field): [undefined] and the empty string are falsy. *)
Definition truthy (o : option string) : bool :=
  match o with
  | Some s => negb (String.eqb s "")
  | None => false
  end.

(** [a || b] on optional strings. *)
Definition or_else (a b : option string) : option string :=
  if truthy a then a else b.

(* ================================================================= *)
(** ** Data model *)

Record competitor : Type := {
  domain : string;
  domain_authority : number;
  estimated_traffic : number
}.

(** A candidate niche.  [related_keywords] is [None] when the field is
    missing from the object, which only a direct caller of an exported
    scorer can arrange. *)
Record niche : Type := {
  niche_name : string;
  monthly_search_volume : number;
  competition : number;
  estimated_cpc : number;
  related_keywords : option (list string);
  top_competitors : list competitor
}.

Definition set_top_competitors (n : niche) (cs : list competitor) : niche :=
  {| niche_name := niche_name n;
     monthly_search_volume := monthly_search_volume n;
     competition := competition n;
     estimated_cpc := estimated_cpc n;
     related_keywords := related_keywords n;
     top_competitors := cs |}.

(** A scored niche: [{...niche, competition_score, monetization_potential,
    trending_score}]. *)
Record scored_niche : Type := {
  base : niche;
  competition_score : number;
  monetization_potential : number;
  trending_score : number
}.

(** The result of [fetchKeywordData]: an object tagged by [success]. *)
Inductive keyword_data : Type :=
| KeywordOk (keyword : string) (search_volume competition cpc : number)
            (related : list string)
| KeywordFailed (keyword error : string).

Definition kd_success (d : keyword_data) : bool :=
  match d with KeywordOk _ _ _ _ _ => true | KeywordFailed _ _ => false end.

(* ================================================================= *)
(** ** Collaborators, state and exceptions *)

(** The outcome of an HTTP request or a database call: the promise is
    rejected with an error, or resolved with a payload. *)
Inductive reply (A : Type) : Type :=
| Rejected (message : string)
| Resolved (data : A).
Arguments Rejected {A} message.
Arguments Resolved {A} data.

(** A row of [response.data.results] from the keyword planner.  [None]
    stands for a member that is missing, so that reading a property of it
    throws a [TypeError]. *)
Record planner_metrics : Type := {
  avg_monthly_searches : number;
  competition_index : number;
  high_top_of_page_bid_micros : number
}.

Record planner_row : Type := {
  keyword_text : option string;
  historical_metrics : option planner_metrics
}.

(** A page of [response.data.pages] from the backlink provider. *)
Record ahrefs_page : Type := {
  url : string;
  domain_rating : number;
  organic_traffic : number;
  backlinks : number
}.

(** The statements [saveAnalysisResults] sends to the store. *)
Inductive sql : Type :=
| Begin
| Commit
| Rollback
| SelectNicheId (name : string)
| UpdateNiche (volume comp mon trend cpc : number) (id : Z)
| InsertNiche (name : string) (volume comp mon trend cpc : number)
| DeleteKeywords (id : Z)
| InsertKeyword (id : Z) (keyword : string)
| DeleteCompetitors (id : Z)
| InsertCompetitor (id : Z) (c : competitor).

(** Every request made to a collaborator. *)
Inductive event : Type :=
| PlannerSearch (keyword : string)
| PlannerRelated (keyword : string)
| AhrefsPositions (target : string)
| TrendsExplore (keyword : string)
| RandomDraw
| DbConnect
| DbQuery (q : sql)
| DbRelease.

(** The environment and the collaborators of one run.  The database
    answers a statement knowing everything requested before it. *)
Record world : Type := {
  KEYWORD_PLANNER_API_KEY : option string;
  env_AHREFS_API_KEY : option string;
  env_SEMRUSH_API_KEY : option string;
  GOOGLE_TRENDS_API_KEY : option string;
  SAVE_ANALYSIS_RESULTS : option string;
  planner_search : string -> reply (option (list planner_row));
  planner_related : string -> reply (option (list planner_row));
  ahrefs_positions : string -> reply (option (list ahrefs_page));
  trends_explore : string -> reply (option (list number));
  random : nat -> R;
  now : string;
  pool_connect : reply unit;
  client_query : list event -> sql -> reply (list Z)
}.

(** [const AHREFS_API_KEY = process.env.AHREFS_API_KEY ||
    process.env.SEMRUSH_API_KEY] *)
Definition AHREFS_API_KEY (w : world) : option string :=
  or_else (env_AHREFS_API_KEY w) (env_SEMRUSH_API_KEY w).

Record state : Type := {
  draws : nat;
  trace : list event
}.

Definition initial : state := {| draws := 0; trace := [] |}.

Inductive outcome (A : Type) : Type :=
| Returned (value : A)
| Thrown (message : string).
Arguments Returned {A} value.
Arguments Thrown {A} message.

Definition M (A : Type) : Type := state -> outcome A * state.

Definition ret {A} (a : A) : M A := fun s => (Returned a, s).

Definition throw {A} (message : string) : M A := fun s => (Thrown message, s).

Definition bind {A B} (m : M A) (k : A -> M B) : M B :=
  fun s =>
    match m s with
    | (Returned a, s') => k a s'
    | (Thrown e, s') => (Thrown e, s')
    end.

(** [try { m } catch (error) { handler error.message }] *)
Definition try_catch {A} (m : M A) (handler : string -> M A) : M A :=
  fun s =>
    match m s with
    | (Returned a, s') => (Returned a, s')
    | (Thrown e, s') => handler e s'
    end.

(** [try { m } finally { cleanup }] *)
Definition try_finally {A} (m : M A) (cleanup : M unit) : M A :=
  fun s =>
    match m s with
    | (r, s') =>
        match cleanup s' with
        | (Returned _, s'') => (r, s'')
        | (Thrown e, s'') => (Thrown e, s'')
        end
    end.

Declare Scope js_scope.
Delimit Scope js_scope with js.
Notation "x <- m ;; k" := (bind m (fun x => k))
  (at level 61, m at next level, right associativity) : js_scope.
Notation "m ;;; k" := (bind m (fun _ => k))
  (at level 61, right associativity) : js_scope.
Open Scope js_scope.

Definition emit (e : event) : M unit :=
  fun s => (Returned tt, {| draws := draws s; trace := trace s ++ [e] |}).

(** Awaiting a request: the event is recorded, a rejection is thrown. *)
Definition await {A} (e : event) (r : reply A) : M A :=
  emit e ;;;
  match r with
  | Rejected message => throw message
  | Resolved data => ret data
  end.

(** [await Promise.all(xs.map(f))], in starting order. *)
Fixpoint mapM {A B} (f : A -> M B) (xs : list A) : M (list B) :=
  match xs with
  | [] => ret []
  | x :: rest => y <- f x ;; ys <- mapM f rest ;; ret (y :: ys)
  end.

(** [xs.forEach(f)] for a body with effects. *)
Fixpoint forEachM {A} (f : A -> M unit) (xs : list A) : M unit :=
  match xs with
  | [] => ret tt
  | x :: rest => f x ;;; forEachM f rest
  end.

(** The message of the [TypeError] raised by reading a property of
    [undefined]. *)
Definition TypeError : string := "Cannot read properties of undefined".

(** [xs.slice(0, n)] for a count [n]. *)
Definition take {A} (n : nat) (xs : list A) : list A := firstn n xs.

(** [xs.reduce((sum, x) => sum + f x, 0)] *)
Definition sum_by {A} (f : A -> number) (xs : list A) : number :=
  fold_left (fun sum x => add sum (f x)) xs (Fin 0).

(* ================================================================= *)
(** ** The scorers *)

Section Scorers.

Variable w : world.

(** [Math.random()] *)
Definition Math_random : M number :=
  fun s =>
    (Returned (Fin (random w (draws s))),
     {| draws := S (draws s); trace := trace s ++ [RandomDraw] |}).

(** The primary formula of [calculateCompetitionScore], used when no
    backlink provider is configured. *)
Definition competition_primary (n : niche) : number :=
  let baseScore := mul (competition n) (Fin 100) in
  let volumeAdjustment := mul (Math_log10 (monthly_search_volume n)) (Fin 2) in
  let cpcAdjustment := mul (estimated_cpc n) (Fin 5) in
  let finalScore :=
    add (add (mul baseScore (Fin 0.6)) (mul volumeAdjustment (Fin 0.2)))
        (mul cpcAdjustment (Fin 0.2)) in
  Math_min (Fin 100) (Math_max (Fin 0) finalScore).

Definition competitor_of_page (site : ahrefs_page) : competitor :=
  {| domain := url site;
     domain_authority := domain_rating site;
     estimated_traffic := organic_traffic site |}.

(** [calculateCompetitionScore(niche)].  The function assigns
    [niche.top_competitors] in place; the embedding returns the niche as
    it stands after the call next to the score. *)
Definition calculateCompetitionScore (n : niche) : M (number * niche) :=
  try_catch
    (if negb (truthy (AHREFS_API_KEY w)) then
       ret (competition_primary n, n)
     else
       data <- await (AhrefsPositions (niche_name n))
                     (ahrefs_positions w (niche_name n)) ;;
       match data with
       | Some pages =>
           let topSites := take 10 pages in
           let n' := set_top_competitors n (map competitor_of_page topSites) in
           let avgDomainAuthority :=
             div (sum_by domain_rating topSites)
                 (of_nat (List.length topSites)) in
           let avgBacklinks :=
             div (sum_by backlinks topSites)
                 (of_nat (List.length topSites)) in
           ret (Math_min (Fin 100)
                  (add (mul avgDomainAuthority (Fin 0.7))
                       (mul (Math_log10 avgBacklinks) (Fin 3))),
                n')
       | None => ret (mul (competition n) (Fin 100), n)
       end)
    (fun _ => ret (add (mul (competition n) (Fin 80)) (Fin 20), n)).

Definition commercialKeywords : list string :=
  ["buy"; "price"; "review"; "best"; "top"; "vs"; "cheap"; "affordable";
   "deal"; "sale"].

(** [[niche.niche_name, ...(niche.related_keywords || [])]] *)
Definition nicheTerms (n : niche) : list string :=
  niche_name n ::
  match related_keywords n with
  | Some ks => ks
  | None => []
  end.

(** The body of [commercialKeywords.forEach]: one step of the loop on the
    running [commercialIntentScore]. *)
Definition commercial_step (terms : list string) (score : number)
    (term : string) : number :=
  if existsb (fun nicheTerm => includes nicheTerm term) terms
  then add score (Fin 0.2)
  else score.

(** The commercial-intent factor: the loop from 0, then the cap at 2. *)
Definition commercialIntentScore (n : niche) : number :=
  Math_min (Fin 2)
    (fold_left (commercial_step (nicheTerms n)) commercialKeywords (Fin 0)).

(** [evaluateMonetizationPotential(niche)] *)
Definition evaluateMonetizationPotential (n : niche) : number :=
  let cpcFactor := Math_min (Fin 5) (mul (estimated_cpc n) (Fin 2)) in
  let volumeFactor :=
    Math_min (Fin 3) (sub (Math_log10 (monthly_search_volume n)) (Fin 2)) in
  let finalScore := add (add cpcFactor volumeFactor) (commercialIntentScore n) in
  Math_min (Fin 10) finalScore.

(** [nicheName.split('').reduce((acc, char) => acc + char.charCodeAt(0), 0)] *)
Fixpoint char_code_sum (s : string) : nat :=
  match s with
  | EmptyString => 0%nat
  | String c rest => (nat_of_ascii c + char_code_sum rest)%nat
  end.

(** The sums of the regression loop over the series [y], with [x[i] = i]:
    [(sumX, sumY, sumXY, sumXX)]. *)
Definition regression_sums (y : list number)
    : number * number * number * number :=
  fold_left
    (fun acc iy =>
       match acc, iy with
       | (sumX, sumY, sumXY, sumXX), (i, yi) =>
           (add sumX (of_nat i), add sumY yi,
            add sumXY (mul (of_nat i) yi),
            add sumXX (mul (of_nat i) (of_nat i)))
       end)
    (combine (seq 0 (List.length y)) y)
    (Fin 0, Fin 0, Fin 0, Fin 0).

(** [calculateTrendingScore(nicheName)].  The reply of the trends endpoint
    is the series of [point.value[0]]; [None] is a body that does not parse
    or has no [default.timelineData]. *)
Definition calculateTrendingScore (nicheName : string) : M number :=
  try_catch
    (if negb (truthy (GOOGLE_TRENDS_API_KEY w)) then
       let hash := char_code_sum nicheName in
       let baseScore := add (div (of_nat (hash mod 60)) (Fin 10)) (Fin 2) in
       r <- Math_random ;;
       ret (Math_min (Fin 10) (add baseScore (sub (mul r (Fin 2)) (Fin 1))))
     else
       data <- await (TrendsExplore nicheName) (trends_explore w nicheName) ;;
       match data with
       | None => throw TypeError
       | Some y =>
           let n := of_nat (List.length y) in
           let avgInterest := div (sum_by (fun v => v) y) n in
           match regression_sums y with
           | (sumX, sumY, sumXY, sumXX) =>
               let slope :=
                 div (sub (mul n sumXY) (mul sumX sumY))
                     (sub (mul n sumXX) (mul sumX sumX)) in
               let trendScore :=
                 add (div avgInterest (Fin 20)) (mul slope (Fin 20)) in
               ret (Math_min (Fin 10) (Math_max (Fin 0) trendScore))
           end
       end)
    (fun _ => ret (Fin 5)).

End Scorers.

(* ================================================================= *)
(** ** Keyword data and candidate generation *)

Section Keywords.

Variable w : world.

Definition prefixes : list string :=
  ["best"; "top"; "affordable"; "premium"; "how to"; "why"; "when to"].

Definition suffixes : list string :=
  ["guide"; "tutorial"; "review"; "tips"; "for beginners"; "services";
   "near me"].

(** [[...prefixes.map(p => `${p} ${keyword}`),
      ...suffixes.map(s => `${keyword} ${s}`)]] *)
Definition mockRelated (keyword : string) : list string :=
  map (fun prefix => prefix ++ " " ++ keyword) prefixes ++
  map (fun suffix => keyword ++ " " ++ suffix) suffixes.

(** [mockKeywordData(keyword)] *)
Definition mockKeywordData (keyword : string) : M keyword_data :=
  let keywordLength := String.length keyword in
  r1 <- Math_random w ;;
  let searchVolume :=
    Math_floor
      (add (Fin 1000)
           (mul (mul (of_nat keywordLength) (Fin 500)) (add (Fin 0.5) r1))) in
  r2 <- Math_random w ;;
  let competition :=
    Math_min
      (add (add (Fin 0.1) (div (of_nat (keywordLength mod 10)) (Fin 20)))
           (mul r2 (Fin 0.3)))
      (Fin 1) in
  r3 <- Math_random w ;;
  let cpc :=
    add (add (Fin 0.5) (mul (of_nat (keywordLength mod 5)) (Fin 0.3))) r3 in
  ret (KeywordOk keyword searchVolume competition cpc
         (take 10 (mockRelated keyword))).

(** [result.keyword_plan_keyword.keyword_text] for every result. *)
Fixpoint keyword_texts (rows : list planner_row) : M (list string) :=
  match rows with
  | [] => ret []
  | row :: rest =>
      match keyword_text row with
      | None => throw TypeError
      | Some text => texts <- keyword_texts rest ;; ret (text :: texts)
      end
  end.

(** [fetchRelatedKeywords(keyword)] *)
Definition fetchRelatedKeywords (keyword : string) : M (list string) :=
  try_catch
    (if negb (truthy (KEYWORD_PLANNER_API_KEY w)) then
       ret (take 15 (mockRelated keyword))
     else
       data <- await (PlannerRelated keyword) (planner_related w keyword) ;;
       match data with
       | Some results => keyword_texts results
       | None => ret []
       end)
    (fun _ => ret []).

(** [fetchKeywordData(keyword)] *)
Definition fetchKeywordData (keyword : string) : M keyword_data :=
  try_catch
    (if negb (truthy (KEYWORD_PLANNER_API_KEY w)) then
       mockKeywordData keyword
     else
       data <- await (PlannerSearch keyword) (planner_search w keyword) ;;
       match data with
       | Some (keywordData :: _) =>
           relatedKeywords <- fetchRelatedKeywords keyword ;;
           match historical_metrics keywordData with
           | None => throw TypeError
           | Some metrics =>
               ret (KeywordOk keyword
                      (avg_monthly_searches metrics)
                      (div (competition_index metrics) (Fin 100))
                      (div (high_top_of_page_bid_micros metrics)
                           (Fin 1000000))
                      relatedKeywords)
           end
       | _ => ret (KeywordFailed keyword "No data found for this keyword")
       end)
    (fun _ => mockKeywordData keyword).

(** [preferences]: an option bag with the one field the code reads. *)
Record preferences : Type := { industry : option string }.

(** The niche a related keyword gives rise to, if it is long enough,
    differs from the main keyword and draws enough search volume. *)
Definition related_niche (keyword : string) (search_volume competition
    cpc : number) (related : list string) (relatedKeyword : string)
    : M (list niche) :=
  if (String.length relatedKeyword <? 5)%nat
     || String.eqb relatedKeyword keyword
  then ret []
  else
    r1 <- Math_random w ;;
    let searchVolMod := add (Fin 0.3) (mul r1 (Fin 0.7)) in
    let searchVolume := Math_floor (mul search_volume searchVolMod) in
    if ge searchVolume (Fin 1000) then
      r2 <- Math_random w ;;
      r3 <- Math_random w ;;
      ret [ {| niche_name := relatedKeyword;
               monthly_search_volume := searchVolume;
               competition := mul competition (add (Fin 0.8) (mul r2 (Fin 0.4)));
               estimated_cpc := mul cpc (add (Fin 0.8) (mul r3 (Fin 0.4)));
               related_keywords :=
                 Some (keyword ::
                       take 5 (filter
                                 (fun k => negb (String.eqb k relatedKeyword))
                                 related));
               top_competitors := [] |} ]
    else ret [].

(** The niches one keyword record pushes: itself, then its related
    keywords that qualify. *)
Definition niches_of (data : keyword_data) : M (list niche) :=
  match data with
  | KeywordFailed _ _ => ret []
  | KeywordOk keyword search_volume competition cpc related =>
      derived <- mapM (related_niche keyword search_volume competition cpc
                         related) related ;;
      ret ({| niche_name := keyword;
              monthly_search_volume := search_volume;
              competition := competition;
              estimated_cpc := cpc;
              related_keywords := Some related;
              top_competitors := [] |} :: List.concat derived)
  end.

(** [niche.niche_name.includes(i) || niche.related_keywords.some(k =>
    k.includes(i))]; reading [some] of a missing array throws. *)
Definition matches_industry (i : string) (n : niche) : M bool :=
  if includes (niche_name n) i then ret true
  else match related_keywords n with
       | Some ks => ret (existsb (fun k => includes k i) ks)
       | None => throw TypeError
       end.

Fixpoint filterM {A} (p : A -> M bool) (xs : list A) : M (list A) :=
  match xs with
  | [] => ret []
  | x :: rest =>
      keep <- p x ;;
      kept <- filterM p rest ;;
      ret (if keep then x :: kept else kept)
  end.

(** [generateNicheRecommendations(keywordDataList, preferences)] *)
Definition generateNicheRecommendations (keywordDataList : list keyword_data)
    (prefs : preferences) : M (list niche) :=
  pushed <- mapM niches_of keywordDataList ;;
  let niches := List.concat pushed in
  if truthy (industry prefs) then
    match industry prefs with
    | Some i => filterM (matches_industry i) niches
    | None => ret niches
    end
  else ret niches.

End Keywords.

(* ================================================================= *)
(** ** Persistence *)

Section Persistence.

Variable w : world.

(** [await client.query(q)] *)
Definition query (q : sql) : M (list Z) :=
  fun s => await (DbQuery q) (client_query w (trace s) q) s.

(** The body of the loop of [saveAnalysisResults] for one niche. *)
Definition save_niche (n : scored_niche) : M unit :=
  let b := base n in
  checkResult <- query (SelectNicheId (niche_name b)) ;;
  nicheId <-
    match checkResult with
    | id :: _ =>
        query (UpdateNiche (monthly_search_volume b) (competition_score n)
                 (monetization_potential n) (trending_score n)
                 (estimated_cpc b) id) ;;;
        ret id
    | [] =>
        result <- query (InsertNiche (niche_name b) (monthly_search_volume b)
                           (competition_score n) (monetization_potential n)
                           (trending_score n) (estimated_cpc b)) ;;
        match result with
        | id :: _ => ret id
        | [] => throw TypeError
        end
    end ;;
  match related_keywords b with
  | Some (k :: ks) =>
      query (DeleteKeywords nicheId) ;;;
      forEachM (fun keyword => query (InsertKeyword nicheId keyword) ;;; ret tt)
               (k :: ks)
  | _ => ret tt
  end ;;;
  match top_competitors b with
  | c :: cs =>
      query (DeleteCompetitors nicheId) ;;;
      forEachM (fun competitor =>
                  query (InsertCompetitor nicheId competitor) ;;; ret tt)
               (c :: cs)
  | [] => ret tt
  end.

(** [saveAnalysisResults(niches)].  When [pool.connect()] rejects, [client]
    is still undefined in the [catch] and [finally] blocks, which then only
    rethrow. *)
Definition saveAnalysisResults (niches : list scored_niche) : M unit :=
  fun s =>
    match await DbConnect (pool_connect w) s with
    | (Thrown e, s1) => (Thrown e, s1)
    | (Returned _, s1) =>
        try_finally
          (try_catch
             (query Begin ;;;
              forEachM save_niche niches ;;;
              query Commit ;;;
              ret tt)
             (fun error => query Rollback ;;; throw error))
          (emit DbRelease)
          s1
    end.

End Persistence.

(* ================================================================= *)
(** ** The recommendation engine *)

(** [xs.sort(compare)]: the built-in sort is stable; [a] stays before [b]
    unless [compare(a, b) > 0], and a NaN from [compare] counts as 0. *)
Section ArraySort.

Context {A : Type}.
Variable compare : A -> A -> number.

Fixpoint sort_insert (x : A) (sorted : list A) : list A :=
  match sorted with
  | [] => [x]
  | y :: rest =>
      if gt (compare x y) (Fin 0) then y :: sort_insert x rest
      else x :: sorted
  end.

Fixpoint Array_sort (xs : list A) : list A :=
  match xs with
  | [] => []
  | x :: rest => sort_insert x (Array_sort rest)
  end.

End ArraySort.

(** [xs.slice(0, end)] for an integer [end]: a negative [end] counts from
    the end of the array. *)
Definition slice0 {A} (stop : Z) (xs : list A) : list A :=
  if (stop <? 0)%Z
  then firstn (Z.to_nat (Z.max (Z.of_nat (List.length xs) + stop) 0)) xs
  else firstn (Z.to_nat stop) xs.

(** The [keywords] field of the options as the caller passed it. *)
Inductive keywords_field : Type :=
| KeywordsMissing
| KeywordsNull
| KeywordsNotArray
| KeywordsArray (keywords : list string).

(** The options of [analyzeNiche]; a field is [None] when it is missing. *)
Record request : Type := {
  keywords : keywords_field;
  limit : option Z;
  prefs : option preferences;
  includeKeywordData : bool
}.

(** An entry of [niche_recommendations]. *)
Module Rec.
Record t : Type := {
  niche_name : string;
  monthly_search_volume : number;
  competition_score : number;
  monetization_potential : number;
  trending_score : number;
  estimated_cpc : number;
  related_keywords : list string;
  top_competitors : list competitor
}.
End Rec.

(** An entry of [keyword_data]. *)
Record keyword_summary : Type := {
  ks_keyword : string;
  ks_search_volume : number;
  ks_cpc : number;
  ks_competition : number
}.

(** What [analyzeNiche] resolves to: [{success: true, timestamp,
    niche_recommendations, keyword_data?}] or [{success: false, error,
    details?}]; [details] holds the stack of the caught error. *)
Inductive response : Type :=
| Success (timestamp : string) (niche_recommendations : list Rec.t)
          (keyword_data : option (list keyword_summary))
| Failure (error : string) (details : option string).

Definition success (r : response) : bool :=
  match r with Success _ _ _ => true | Failure _ _ => false end.

(** The weighted score the comparator of the ranking computes. *)
Definition weighted (a : scored_niche) : number :=
  add (add (mul (sub (Fin 10) (competition_score a)) (Fin 0.4))
           (mul (monetization_potential a) (Fin 0.4)))
      (mul (trending_score a) (Fin 0.2)).

(** [(a, b) => scoreB - scoreA] *)
Definition by_weighted (a b : scored_niche) : number :=
  let scoreA := weighted a in
  let scoreB := weighted b in
  sub scoreB scoreA.

(** Step 4 of [analyzeNiche]: filter, sort, limit. *)
Definition filterNiches (lim : Z) (scoredNiches : list scored_niche)
    : list scored_niche :=
  slice0 lim
    (Array_sort by_weighted
       (filter (fun n => ge (monetization_potential n) (Fin 6)) scoredNiches)).

(** The entry of the response for one niche whose related keywords are
    [ks]. *)
Definition entry (n : scored_niche) (ks : list string) : Rec.t :=
  {| Rec.niche_name := niche_name (base n);
     Rec.monthly_search_volume := monthly_search_volume (base n);
     Rec.competition_score := toFixed2 (competition_score n);
     Rec.monetization_potential := toFixed2 (monetization_potential n);
     Rec.trending_score := toFixed2 (trending_score n);
     Rec.estimated_cpc := toFixed2 (estimated_cpc (base n));
     Rec.related_keywords := take 10 ks;
     Rec.top_competitors := take 5 (top_competitors (base n)) |}.

(** The callback of [filteredNiches.map]: [slice] of a missing
    [related_keywords] throws. *)
Definition present (n : scored_niche) : M Rec.t :=
  match related_keywords (base n) with
  | None => throw TypeError
  | Some ks => ret (entry n ks)
  end.

(** [limit = 5] and [preferences = {}] in the destructuring of the
    options. *)
Definition limit_or_default (o : request) : Z :=
  match limit o with
  | Some l => l
  | None => 5%Z
  end.

Definition preferences_or_default (o : request) : preferences :=
  match prefs o with
  | Some p => p
  | None => {| industry := None |}
  end.

Definition summary (d : keyword_data) : keyword_summary :=
  match d with
  | KeywordOk k volume comp cpc _ =>
      {| ks_keyword := k; ks_search_volume := volume; ks_cpc := cpc;
         ks_competition := comp |}
  | KeywordFailed k _ =>
      {| ks_keyword := k; ks_search_volume := NaN; ks_cpc := NaN;
         ks_competition := NaN |}
  end.

Section Engine.

Variable w : world.

(** The three scores of one niche, in the order the code awaits them. *)
Definition score_niche (n : niche) : M scored_niche :=
  scored <- calculateCompetitionScore w n ;;
  let competitionScore := fst scored in
  let n' := snd scored in
  let monetizationPotential := evaluateMonetizationPotential n' in
  trendingScore <- calculateTrendingScore w (niche_name n') ;;
  ret {| base := n';
         competition_score := competitionScore;
         monetization_potential := monetizationPotential;
         trending_score := trendingScore |}.

(** Steps 1 to 4: from the validated keywords to the filtered niches. *)
Definition analysis (keywords : list string) (lim : Z) (p : preferences)
    : M (list keyword_data * option (list scored_niche)) :=
  keywordDataResults <- mapM (fetchKeywordData w) keywords ;;
  let validKeywordData := filter kd_success keywordDataResults in
  match validKeywordData with
  | [] => ret (validKeywordData, None)
  | _ :: _ =>
      niches <- generateNicheRecommendations w validKeywordData p ;;
      scoredNiches <- mapM score_niche niches ;;
      ret (validKeywordData, Some (filterNiches lim scoredNiches))
  end.

(** The body of the [try] block of [analyzeNiche]. *)
Definition analyzeNiche_body (options : option request) : M response :=
  match options with
  | None => throw TypeError
  | Some o =>
      let lim := limit_or_default o in
      let p := preferences_or_default o in
      match keywords o with
      | KeywordsArray (k :: ks) =>
          result <- analysis (k :: ks) lim p ;;
          match result with
          | (_, None) =>
              ret (Failure
                     "Failed to retrieve valid data for any of the provided keywords"
                     None)
          | (validKeywordData, Some filteredNiches) =>
              (if match SAVE_ANALYSIS_RESULTS w with
                  | Some v => String.eqb v "true"
                  | None => false
                  end
               then saveAnalysisResults w filteredNiches
               else ret tt) ;;;
              recommendations <- mapM present filteredNiches ;;
              ret (Success (now w) recommendations
                     (if includeKeywordData o
                      then Some (map summary validKeywordData)
                      else None))
          end
      | _ => ret (Failure "No keywords provided for niche analysis" None)
      end
  end.

(** [analyzeNiche(options)] *)
Definition analyzeNiche (options : option request) : M response :=
  try_catch (analyzeNiche_body options)
    (fun message =>
       ret (Failure ("Niche analysis failed: " ++ message) (Some message))).

End Engine.

(* ================================================================= *)
(** ** The domain candidate scorer *)

(** [scoreDomain] adds and compares decimal constants and one quotient of
    two counts whose divisor is never zero: no infinity and no NaN can
    arise, so its numbers are rationals and the function computes. *)
Module Domain.

Local Open Scope Q_scope.

(** [s.split('.')] *)
Fixpoint split_dot (s : string) : list string :=
  match s with
  | EmptyString => [EmptyString]
  | String c rest =>
      if Ascii.eqb c "."%char then EmptyString :: split_dot rest
      else match split_dot rest with
           | part :: parts => String c part :: parts
           | [] => [String c EmptyString]
           end
  end.

Definition chars (s : string) : list ascii := list_ascii_of_string s.

Definition in_range (lo hi c : ascii) : bool :=
  ((nat_of_ascii lo <=? nat_of_ascii c)%nat
   && (nat_of_ascii c <=? nat_of_ascii hi)%nat)%bool.

(** [/\d/.test(s)] *)
Definition has_digit (s : string) : bool :=
  existsb (in_range "0" "9") (chars s).

(** [/([a-z])\1/.test(s)] *)
Fixpoint has_double_letter (s : string) : bool :=
  match s with
  | String a (String b _ as rest) =>
      (in_range "a" "z" a && Ascii.eqb a b) || has_double_letter rest
  | _ => false
  end.

(** [(s.match(/[...]/g) || []).length] for a character class. *)
Definition count_in (class : string) (s : string) : nat :=
  List.length
    (filter (fun c => existsb (Ascii.eqb c) (chars class)) (chars s)).

Definition tld_is (tld : option string) (name : string) : bool :=
  match tld with
  | Some t => String.eqb t name
  | None => false
  end.

(** [scoreDomain(domain)] *)
Definition scoreDomain (domain : string) : Q :=
  let domainName := nth 0 (split_dot domain) EmptyString in
  let tld := nth_error (split_dot domain) 1 in
  let score := 5 in
  let length := String.length domainName in
  let score :=
    if (length <=? 5)%nat then score + 2
    else if (length <=? 10)%nat then score + 1.5
    else if (length <=? 15)%nat then score + 1
    else if (20 <? length)%nat then score - 1
    else score in
  let score :=
    if tld_is tld "com" then score + 2
    else if tld_is tld "org" || tld_is tld "net" then score + 1
    else if tld_is tld "io" || tld_is tld "co" then score + 0.5
    else score in
  let score := if includes domainName "-" then score - 0.5 else score in
  let score := if has_digit domainName then score - 0.5 else score in
  let score := if has_double_letter domainName then score - 0.3 else score in
  let consonants := count_in "bcdfghjklmnpqrstvwxyz" domainName in
  let vowels := count_in "aeiou" domainName in
  let ratio :=
    inject_Z (Z.of_nat consonants)
    / inject_Z (Z.of_nat (if (vowels =? 0)%nat then 1%nat else vowels)) in
  let score :=
    if Qle_bool 1 ratio && Qle_bool ratio 2.5 then score + 1
    else if negb (Qle_bool ratio 2.5) then score - 0.5
    else score in
  Qmax 0 (Qmin 10 score).

End Domain.

(* ================================================================= *)
(** ** The specification's formulas and sample inputs *)






(** A world with no credentials, no network and no database; every random
    draw is 1/2. *)
Definition offline : world :=
  {| KEYWORD_PLANNER_API_KEY := None;
     env_AHREFS_API_KEY := None;
     env_SEMRUSH_API_KEY := None;
     GOOGLE_TRENDS_API_KEY := None;
     SAVE_ANALYSIS_RESULTS := None;
     planner_search := fun _ => Rejected "network unreachable";
     planner_related := fun _ => Rejected "network unreachable";
     ahrefs_positions := fun _ => Rejected "network unreachable";
     trends_explore := fun _ => Rejected "network unreachable";
     random := fun _ => 0.5;
     now := "2024-01-01T00:00:00.000Z";
     pool_connect := Rejected "connection refused";
     client_query := fun _ _ => Rejected "connection refused" |}.

(** The same world with a backlink provider key whose requests fail. *)
Definition provider_down : world :=
  {| KEYWORD_PLANNER_API_KEY := None;
     env_AHREFS_API_KEY := Some "fake-ahrefs-key";
     env_SEMRUSH_API_KEY := None;
     GOOGLE_TRENDS_API_KEY := None;
     SAVE_ANALYSIS_RESULTS := None;
     planner_search := fun _ => Rejected "network unreachable";
     planner_related := fun _ => Rejected "network unreachable";
     ahrefs_positions := fun _ => Rejected "API request failed";
     trends_explore := fun _ => Rejected "network unreachable";
     random := fun _ => 0.5;
     now := "2024-01-01T00:00:00.000Z";
     pool_connect := Rejected "connection refused";
     client_query := fun _ _ => Rejected "connection refused" |}.

(** The niche of the scorer tests. *)
Definition hydroponics : niche :=
  {| niche_name := "hydroponics";
     monthly_search_volume := Fin 10000;
     competition := Fin 0.35;
     estimated_cpc := Fin 1.5;
     related_keywords := Some [];
     top_competitors := [] |}.

(** A niche with one monthly search, no CPC and no commercial term. *)
Definition one_search : niche :=
  {| niche_name := "moss";
     monthly_search_volume := Fin 1;
     competition := Fin 0;
     estimated_cpc := Fin 0;
     related_keywords := Some [];
     top_competitors := [] |}.

(** The same niche with no search at all. *)
Definition no_search : niche :=
  {| niche_name := "moss";
     monthly_search_volume := Fin 0;
     competition := Fin 0;
     estimated_cpc := Fin 0;
     related_keywords := Some [];
     top_competitors := [] |}.

Definition scored (name : string) (comp mon trend : R) : scored_niche :=
  {| base := {| niche_name := name;
                monthly_search_volume := Fin 5000;
                competition := Fin 0.5;
                estimated_cpc := Fin 2;
                related_keywords := Some [];
                top_competitors := [] |};
     competition_score := Fin comp;
     monetization_potential := Fin mon;
     trending_score := Fin trend |}.



Definition finite (x : number) : Prop := exists r, x = Fin r.






(** The options the validation turns away. *)
Definition invalid_keywords (k : keywords_field) : bool :=
  match k with
  | KeywordsArray (_ :: _) => false
  | _ => true
  end.

(** The keyword planner's answer in the repository's end-to-end tests. *)
Definition planner_hit : option (list planner_row) :=
  Some [ {| keyword_text := Some "hydroponics";
            historical_metrics :=
              Some {| avg_monthly_searches := Fin 10000;
                      competition_index := Fin 45;
                      high_top_of_page_bid_micros := Fin 2000000 |} |} ].

(** The world of the test 'should handle database errors when saving
    results': saving is enabled, the keyword planner answers, and the
    database accepts [BEGIN] and rejects every other statement. *)
Definition store_failing : world :=
  {| KEYWORD_PLANNER_API_KEY := Some "fake-planner-key";
     env_AHREFS_API_KEY := None;
     env_SEMRUSH_API_KEY := None;
     GOOGLE_TRENDS_API_KEY := None;
     SAVE_ANALYSIS_RESULTS := Some "true";
     planner_search := fun _ => Resolved planner_hit;
     planner_related := fun _ => Resolved planner_hit;
     ahrefs_positions := fun _ => Rejected "network unreachable";
     trends_explore := fun _ => Rejected "network unreachable";
     random := fun _ => 0.5;
     now := "2024-01-01T00:00:00.000Z";
     pool_connect := Resolved tt;
     client_query :=
       fun _ q =>
         match q with
         | Begin => Resolved []
         | _ => Rejected "Database error"
         end |}.

(** The request of that test: [{keywords: ['hydroponics'], limit: 2}]. *)
Definition hydroponics_request : request :=
  {| keywords := KeywordsArray ["hydroponics"];
     limit := Some 2%Z;
     prefs := None;
     includeKeywordData := false |}.

(** The niche the request gives rise to in that world. *)
Definition planner_niche : niche :=
  {| niche_name := "hydroponics";
     monthly_search_volume := Fin 10000;
     competition := div (Fin 45) (Fin 100);
     estimated_cpc := div (Fin 2000000) (Fin 1000000);
     related_keywords := Some ["hydroponics"];
     top_competitors := [] |}.

(** That niche with its three scores. *)
Definition planner_scored : scored_niche :=
  {| base := planner_niche;
     competition_score := competition_primary planner_niche;
     monetization_potential := evaluateMonetizationPotential planner_niche;
     trending_score :=
       Math_min (Fin 10)
         (add (add (div (of_nat 2) (Fin 10)) (Fin 2))
              (sub (mul (Fin 0.5) (Fin 2)) (Fin 1))) |}.

(** The keyword record the planner's answer becomes. *)
Definition planner_record : keyword_data :=
  KeywordOk "hydroponics" (Fin 10000) (div (Fin 45) (Fin 100))
    (div (Fin 2000000) (Fin 1000000)) ["hydroponics"].

(* ================================================================= *)
(** ** Traces *)

(** [m] only adds events that satisfy [P] to the trace, whether it returns
    or throws. *)
Definition emits {A} (P : event -> Prop) (m : M A) : Prop :=
  forall s r s', m s = (r, s') ->
  exists evs, trace s' = (trace s ++ evs)%list /\ Forall P evs.

(** [m] always returns: no exception leaves it. *)
Definition never_throws {A} (m : M A) : Prop :=
  forall s, exists a s', m s = (Returned a, s').

(** The requests a world is configured for: the keyword planner, the
    backlink provider and the trends endpoint each need their key, the
    database needs [SAVE_ANALYSIS_RESULTS === 'true']; [Math.random] is
    always at hand. *)
Definition configured (w : world) (e : event) : Prop :=
  match e with
  | PlannerSearch _ | PlannerRelated _ =>
      truthy (KEYWORD_PLANNER_API_KEY w) = true
  | AhrefsPositions _ => truthy (AHREFS_API_KEY w) = true
  | TrendsExplore _ => truthy (GOOGLE_TRENDS_API_KEY w) = true
  | RandomDraw => True
  | DbConnect | DbQuery _ | DbRelease =>
      SAVE_ANALYSIS_RESULTS w = Some "true"
  end.

(** The statements that read or write rows, as opposed to the three that
    delimit the transaction. *)
Definition is_data (q : sql) : Prop :=
  match q with
  | Begin | Commit | Rollback => False
  | _ => True
  end.

(** The statements on the [niche_keywords] table. *)
Definition on_keywords (q : sql) : Prop :=
  match q with
  | DeleteKeywords _ | InsertKeyword _ _ => True
  | _ => False
  end.

(** The keyword of a keyword record. *)
Definition kd_keyword (d : keyword_data) : string :=
  match d with
  | KeywordOk k _ _ _ _ => k
  | KeywordFailed k _ => k
  end.

(** The keyword planner has no result for [k]: the request resolved with
    no [results] array or an empty one. *)
Definition no_planner_result (w : world) (k : string) : Prop :=
  planner_search w k = Resolved None \/ planner_search w k = Resolved (Some []).

(* ================================================================= *)
(** ** Further sample worlds *)

(** A world whose only credential is the trends key; the endpoint gives
    [answer] for every name. *)
Definition trends_world (answer : reply (option (list number))) : world :=
  {| KEYWORD_PLANNER_API_KEY := None;
     env_AHREFS_API_KEY := None;
     env_SEMRUSH_API_KEY := None;
     GOOGLE_TRENDS_API_KEY := Some "fake-trends-key";
     SAVE_ANALYSIS_RESULTS := None;
     planner_search := fun _ => Rejected "network unreachable";
     planner_related := fun _ => Rejected "network unreachable";
     ahrefs_positions := fun _ => Rejected "network unreachable";
     trends_explore := fun _ => answer;
     random := fun _ => 0.5;
     now := "2024-01-01T00:00:00.000Z";
     pool_connect := Rejected "connection refused";
     client_query := fun _ _ => Rejected "connection refused" |}.

(** A world whose only credential is the backlink provider key, given as
    [SEMRUSH_API_KEY]; the provider gives [answer] for every target. *)
Definition ahrefs_world (answer : reply (option (list ahrefs_page))) : world :=
  {| KEYWORD_PLANNER_API_KEY := None;
     env_AHREFS_API_KEY := None;
     env_SEMRUSH_API_KEY := Some "fake-semrush-key";
     GOOGLE_TRENDS_API_KEY := None;
     SAVE_ANALYSIS_RESULTS := None;
     planner_search := fun _ => Rejected "network unreachable";
     planner_related := fun _ => Rejected "network unreachable";
     ahrefs_positions := fun _ => answer;
     trends_explore := fun _ => Rejected "network unreachable";
     random := fun _ => 0.5;
     now := "2024-01-01T00:00:00.000Z";
     pool_connect := Rejected "connection refused";
     client_query := fun _ _ => Rejected "connection refused" |}.

(** The series of the trends test: interest 60, 65, 70, 75, 80. *)
Definition rising_series : list number :=
  [Fin 60; Fin 65; Fin 70; Fin 75; Fin 80].

(** A page nobody links to. *)
Definition unlinked_page : ahrefs_page :=
  {| url := "example.com";
     domain_rating := Fin 45;
     organic_traffic := Fin 30000;
     backlinks := Fin 0 |}.

(** The state a call leaves after one request [e] and no random draw. *)
Definition after (s : state) (e : event) : state :=
  {| draws := draws s; trace := trace s ++ [e] |}.

(* ================================================================= *)
(** ** Where a candidate niche comes from *)

(** [n] is the niche a keyword record stands for itself. *)
Definition main_niche_of (d : keyword_data) (n : niche) : Prop :=
  match d with
  | KeywordOk k v c p related =>
      n = {| niche_name := k;
             monthly_search_volume := v;
             competition := c;
             estimated_cpc := p;
             related_keywords := Some related;
             top_competitors := [] |}
  | KeywordFailed _ _ => False
  end.

(** [n] is a niche derived from one of the related keywords of a record:
    the name is a related keyword of at least five characters that differs
    from the record's keyword, the volume is at least 1000, and the related
    keywords of [n] are the record's keyword followed by at most five of
    the record's related keywords, none of them the name of [n]. *)
Definition derived_niche_of (d : keyword_data) (n : niche) : Prop :=
  match d with
  | KeywordOk k v c p related =>
      In (niche_name n) related /\
      (5 <= String.length (niche_name n))%nat /\
      niche_name n <> k /\
      ge (monthly_search_volume n) (Fin 1000) = true /\
      top_competitors n = [] /\
      exists others,
        related_keywords n = Some (k :: others) /\
        (List.length others <= 5)%nat /\
        ~ In (niche_name n) others /\
        incl others related
  | KeywordFailed _ _ => False
  end.

(** The niche name or one of the related keywords contains [i]. *)
Definition mentions (i : string) (n : niche) : Prop :=
  includes (niche_name n) i = true \/
  exists ks, related_keywords n = Some ks /\
             existsb (fun k => includes k i) ks = true.

(** The world of the persistence test with saving switched off. *)
Definition planner_only : world :=
  {| KEYWORD_PLANNER_API_KEY := Some "fake-planner-key";
     env_AHREFS_API_KEY := None;
     env_SEMRUSH_API_KEY := None;
     GOOGLE_TRENDS_API_KEY := None;
     SAVE_ANALYSIS_RESULTS := None;
     planner_search := fun _ => Resolved planner_hit;
     planner_related := fun _ => Resolved planner_hit;
     ahrefs_positions := fun _ => Rejected "network unreachable";
     trends_explore := fun _ => Rejected "network unreachable";
     random := fun _ => 0.5;
     now := "2024-01-01T00:00:00.000Z";
     pool_connect := Rejected "connection refused";
     client_query := fun _ _ => Rejected "connection refused" |}.

(** The state [analyzeNiche] leaves there, started from [initial]. *)
Definition planner_only_final : state :=
  {| draws := 1;
     trace := [PlannerSearch "hydroponics"; PlannerRelated "hydroponics";
               RandomDraw] |}.

(** The statements on the [niche_competitors] table. *)
Definition on_competitors (q : sql) : Prop :=
  match q with
  | DeleteCompetitors _ | InsertCompetitor _ _ => True
  | _ => False
  end.

(** The failure [analyzeNiche] reports when no keyword gave data. *)
Definition no_valid_data : response :=
  Failure "Failed to retrieve valid data for any of the provided keywords"
    None.

(* ================================================================= *)
(** ** Domain names *)

(** The string has no dot. *)
Definition no_dot (s : string) : Prop :=
  forallb (fun c => negb (Ascii.eqb c "."%char)) (Domain.chars s) = true.


(* ================================================================= *)
(** ** The domain registry *)

(** The rest of the domain registration module: [generateDomainOptions],
    [checkDomainAvailability] and [registerDomain].  Scores are the
    rationals of [scoreDomain]; a string is a sequence of code units below
    256, on which [toLowerCase] moves A-Z and the Latin-1 capitals; the
    registrar, the DNS service, [Math.random] and the clock are oracles of
    a [registrar]; the requests sent are returned in order next to the
    result. *)
Module Registry.

(** [c.toLowerCase()] *)
Definition lower (c : ascii) : ascii :=
  let n := nat_of_ascii c in
  if ((65 <=? n) && (n <=? 90))%nat then ascii_of_nat (n + 32)
  else if ((192 <=? n) && (n <=? 222) && negb (n =? 215))%nat
       then ascii_of_nat (n + 32)
  else c.

(** [\w] *)
Definition is_word (c : ascii) : bool :=
  Domain.in_range "a" "z" c || Domain.in_range "A" "Z" c
  || Domain.in_range "0" "9" c || Ascii.eqb c "_"%char.

(** [\s], which is also what [trim] removes: tab to carriage return, the
    space and the no-break space. *)
Definition is_space (c : ascii) : bool :=
  let n := nat_of_ascii c in
  (((9 <=? n) && (n <=? 13)) || (n =? 32) || (n =? 160))%nat.

(** A character that [replace(/[^\w\s-]/g, '')] keeps. *)
Definition kept (c : ascii) : bool :=
  is_word c || is_space c || Ascii.eqb c "-"%char.

Fixpoint trim_start (l : list ascii) : list ascii :=
  match l with
  | c :: rest => if is_space c then trim_start rest else l
  | [] => []
  end.

(** [s.trim()] on the code units of [s]. *)
Definition trim (l : list ascii) : list ascii :=
  rev (trim_start (rev (trim_start l))).

(** [keyword.toLowerCase().replace(/[^\w\s-]/g, '').trim()] *)
Definition clean (keyword : string) : string :=
  string_of_list_ascii
    (trim (filter kept (map lower (list_ascii_of_string keyword)))).

Record preferences : Type := {
  useHyphens : bool;
  preferredTLDs : option (list string);
  shortDomains : bool;
  includeNumbers : bool
}.

(** [preferences = {}] *)
Definition no_preferences : preferences :=
  {| useHyphens := false; preferredTLDs := None; shortDomains := false;
     includeNumbers := false |}.

Definition default_TLDs : list string := [".com"; ".org"; ".net"; ".io"].

Definition maxDomainLength : nat := 63.

(** A keyword in a template literal; [cleanedKeywords[0]] of an empty
    array prints as "undefined". *)
Definition show (k : option string) : string :=
  match k with
  | Some s => s
  | None => "undefined"
  end.

(** [Math.floor(x)] in a template literal: an integer in decimal. *)
Definition show_floor (x : Q) : string :=
  NilEmpty.string_of_int (Z.to_int (Qfloor x)).

(** The options one label gives: every TLD, when the label is not longer
    than a DNS label may be. *)
Definition with_TLDs (tlds : list string) (label : string) : list string :=
  if (String.length label <=? maxDomainLength)%nat
  then map (fun tld => label ++ tld) tlds
  else [].

(** The index pairs of the two nested loops, in loop order. *)
Definition pairs (len : nat) : list (nat * nat) :=
  flat_map (fun i => map (fun j => (i, j))
                         (seq (S i) (Nat.min len 4 - S i)))
           (seq 0 (Nat.min len 3)).

(** The combinations of the pair [(ki, kj)], drawing from the random
    stream at [n]; the number of draws made comes back with them. *)
Definition combinations (random : nat -> Q) (p : preferences)
    (ki kj : string) (n : nat) : list string * nat :=
  (List.concat
     [ [ki ++ kj];
       if useHyphens p then [ki ++ "-" ++ kj] else [];
       [ki ++ "and" ++ kj];
       if includeNumbers p
       then [ki ++ show_floor (random n * 100);
             ki ++ kj ++ show_floor (random (S n) * 10)]
       else [] ],
   if includeNumbers p then 2%nat else 0%nat).

(** The body of the inner loop for one pair of indices. *)
Definition pair_options (random : nat -> Q) (p : preferences)
    (tlds cleaned : list string) (acc : list string * nat)
    (ij : nat * nat) : list string * nat :=
  match nth_error cleaned (fst ij), nth_error cleaned (snd ij) with
  | Some ki, Some kj =>
      if String.eqb ki kj then acc
      else
        let (combos, drawn) := combinations random p ki kj (snd acc) in
        (List.app (fst acc) (flat_map (with_TLDs tlds) combos),
         (snd acc + drawn)%nat)
  | _, _ => acc
  end.

Definition prefixes : list string := ["best"; "top"; "my"; "the"].
Definition suffixes : list string := ["guide"; "hub"; "pro"; "expert"; "hq"].

(** [[...new Set(xs)]]: the first occurrence of every string, in order. *)
Fixpoint dedupe (seen xs : list string) : list string :=
  match xs with
  | [] => []
  | x :: rest =>
      if existsb (String.eqb x) seen then dedupe seen rest
      else x :: dedupe (x :: seen) rest
  end.

(** [domain.split('.')[0]] *)
Definition label_of (domain : string) : string :=
  nth 0 (Domain.split_dot domain) EmptyString.

(** Everything [generateDomainOptions] pushes, in order, for a main
    keyword that exists or for an empty list of TLDs. *)
Definition pushed (random : nat -> Q) (p : preferences)
    (tlds cleaned : list string) : list string :=
  let mainKeyword := show (nth_error cleaned 0) in
  List.concat
    [ with_TLDs tlds mainKeyword;
      fst (fold_left (pair_options random p tlds cleaned)
             (pairs (List.length cleaned)) ([], 0%nat));
      flat_map (fun prefix => with_TLDs tlds (prefix ++ mainKeyword)) prefixes;
      flat_map (fun suffix => with_TLDs tlds (mainKeyword ++ suffix)) suffixes ].

(** [generateDomainOptions(keywordsList, preferences)].  The first loop
    reads [mainKeyword.length] once per TLD: with no keyword left after
    cleaning this throws, unless there is no TLD to loop over. *)
Definition generateDomainOptions (random : nat -> Q)
    (keywordsList : list string) (p : preferences) : outcome (list string) :=
  let tlds := match preferredTLDs p with
              | Some tlds => tlds
              | None => default_TLDs
              end in
  let cleanedKeywords :=
    filter (fun keyword => (0 <? String.length keyword)%nat)
           (map clean keywordsList) in
  match nth_error cleanedKeywords 0, tlds with
  | None, _ :: _ => Thrown TypeError
  | _, _ =>
      let domainOptions := pushed random p tlds cleanedKeywords in
      if shortDomains p then
        Returned (firstn 20
                    (filter (fun domain =>
                               (String.length (label_of domain) <=? 15)%nat)
                            domainOptions))
      else Returned (firstn 25 (dedupe [] domainOptions))
  end.

(** What the registrar answers to a registration. *)
Record registration : Type := {
  reg_success : bool;
  reg_cost : option Q;
  reg_error : option string
}.

(** The requests sent to the registrar and to the DNS service. *)
Inductive request : Type :=
| CheckAvailability (DomainName TLD : string)
| RegisterDomain (DomainName TLD : string)
| AddZone (domain : string).

(** The collaborators of [registerDomain].  An availability answer is
    [result.isAvailable === true]. *)
Record registrar : Type := {
  checkAvailability : string -> string -> reply bool;
  register : string -> string -> reply registration;
  addZone : string -> reply unit;
  random : nat -> Q;
  today : string;
  in_one_year : string
}.

(** The arguments [checkDomainAvailability] and [registerDomain] pass for
    a domain: [parts[0]] and [`.${parts[1]}`]. *)
Definition name_part (domain : string) : string := label_of domain.

Definition tld_part (domain : string) : string :=
  "." ++ show (nth_error (Domain.split_dot domain) 1).

(** [checkDomainAvailability(domain)]: an error counts as not available. *)
Definition checkDomainAvailability (r : registrar) (domain : string) : bool :=
  match checkAvailability r (name_part domain) (tld_part domain) with
  | Resolved isAvailable => isAvailable
  | Rejected _ => false
  end.

(** An entry of [availabilityChecks]. *)
Record check : Type := {
  domain : string;
  available : bool;
  score : Q
}.

Definition check_of (r : registrar) (d : string) : check :=
  let a := checkDomainAvailability r d in
  {| domain := d;
     available := a;
     score := if a then Domain.scoreDomain d else 0%Q |}.

(** [(a, b) => b.score - a.score] *)
Definition by_score (a b : check) : number :=
  sub (Fin (Q2R (score b))) (Fin (Q2R (score a))).

(** What [registerDomain] resolves to. *)
Inductive result : Type :=
| Registered (domain registrationDate expirationDate : string)
             (nameservers : list string) (domainScore registrationCost : Q)
| NotRegistered (error : string) (attempted_domain details : option string).

(** [result.cost || 12.99] *)
Definition cost_or_default (c : option Q) : Q :=
  match c with
  | Some q => if Qeq_bool q 0 then 12.99%Q else q
  | None => 12.99%Q
  end.

(** [result.error || 'Unknown error'] *)
Definition error_or_unknown (e : option string) : string :=
  if truthy e then show e else "Unknown error".

(** The domains that are available, best score first. *)
Definition availableDomains (r : registrar) (options : list string)
    : list check :=
  Array_sort by_score (filter available (map (check_of r) options)).

(** [registerDomain(nicheData, preferences)], with the requests it sent. *)
Definition registerDomain (r : registrar) (nicheData : niche)
    (p : preferences) : result * list request :=
  let caught message :=
    NotRegistered ("Domain registration error: " ++ message) None
      (Some message) in
  match related_keywords nicheData with
  | None => (caught TypeError, [])
  | Some related =>
      let keywordsList := niche_name nicheData :: take 5 related in
      match generateDomainOptions (random r) keywordsList p with
      | Thrown message => (caught message, [])
      | Returned domainOptions =>
          let checks :=
            map (fun d => CheckAvailability (name_part d) (tld_part d))
                domainOptions in
          match availableDomains r domainOptions with
          | [] => (NotRegistered "No available domains found" None None,
                   checks)
          | best :: _ =>
              let domainToRegister := domain best in
              let registering :=
                RegisterDomain (name_part domainToRegister)
                  (tld_part domainToRegister) in
              match register r (name_part domainToRegister)
                      (tld_part domainToRegister) with
              | Rejected message =>
                  (caught message, List.app checks [registering])
              | Resolved registrationResult =>
                  if reg_success registrationResult then
                    match addZone r domainToRegister with
                    | Rejected message =>
                        (caught message,
                         List.app checks
                           [registering; AddZone domainToRegister])
                    | Resolved _ =>
                        (Registered domainToRegister (today r)
                           (in_one_year r)
                           ["ns1.cloudflare.com"; "ns2.cloudflare.com"]
                           (score best)
                           (cost_or_default (reg_cost registrationResult)),
                         List.app checks
                           [registering; AddZone domainToRegister])
                    end
                  else
                    (NotRegistered
                       ("Domain registration failed: "
                        ++ error_or_unknown (reg_error registrationResult))
                       (Some domainToRegister) None,
                     List.app checks [registering])
              end
          end
      end
  end.

End Registry.

(** A character a cleaned keyword may hold: a lower-case letter, a digit,
    an underscore, a hyphen or white space. *)
Definition clean_char (c : ascii) : bool :=
  Domain.in_range "a" "z" c || Domain.in_range "0" "9" c
  || Ascii.eqb c "_"%char || Ascii.eqb c "-"%char || Registry.is_space c.

(** The list does not begin with white space. *)
Definition starts_clean (l : list ascii) : Prop :=
  match l with
  | c :: _ => Registry.is_space c = false
  | [] => True
  end.

(** The TLDs in force: the preferred ones, or the four defaults. *)
Definition TLDs_of (p : Registry.preferences) : list string :=
  match Registry.preferredTLDs p with
  | Some tlds => tlds
  | None => Registry.default_TLDs
  end.

(** A TLD as the registry writes it: a dot followed by a name with no dot
    in it. *)
Definition dotted (tld : string) : Prop :=
  exists t, tld = String "."%char t /\ no_dot t.

(** The sample stream of random numbers: 0.37 at every draw. *)
Definition steady (n : nat) : Q := 37 # 100.

(** The preferences of the registry test: hyphens, [.io] and [.net],
    short domains, numbers. *)
Definition short_preferences : Registry.preferences :=
  {| Registry.useHyphens := true;
     Registry.preferredTLDs := Some [".io"; ".net"];
     Registry.shortDomains := true;
     Registry.includeNumbers := true |}.

(** [d] is a label with property [L], of at most 63 characters, followed
    by one of the TLDs. *)
Definition labelled (L : string -> Prop) (tlds : list string) (d : string)
    : Prop :=
  exists label tld, d = label ++ tld /\ In tld tlds /\ L label /\
                    (String.length label <= 63)%nat.

(** A request that asks for availability. *)
Definition is_check (q : Registry.request) : Prop :=
  exists name tld, q = Registry.CheckAvailability name tld.

(** The availability request [checkDomainAvailability] sends for [d]. *)
Definition check_request (d : string) : Registry.request :=
  Registry.CheckAvailability (Registry.name_part d) (Registry.tld_part d).

(** The registration request [registerDomain] sends for [d]. *)
Definition register_request (d : string) : Registry.request :=
  Registry.RegisterDomain (Registry.name_part d) (Registry.tld_part d).

(** A registrar at which exactly the domains [free] holds are available,
    every registration succeeds at the default price and the DNS zone is
    always created. *)
Definition registrar_with (free : string -> string -> bool)
    : Registry.registrar :=
  {| Registry.checkAvailability := fun name tld => Resolved (free name tld);
     Registry.register :=
       fun _ _ => Resolved {| Registry.reg_success := true;
                              Registry.reg_cost := None;
                              Registry.reg_error := None |};
     Registry.addZone := fun _ => Resolved tt;
     Registry.random := steady;
     Registry.today := "2024-01-01T00:00:00.000Z";
     Registry.in_one_year := "2024-12-31T00:00:00.000Z" |}.


(** The niche of the scorer tests, asking for [.com] only. *)
Definition com_only : Registry.preferences :=
  {| Registry.useHyphens := false;
     Registry.preferredTLDs := Some [".com"];
     Registry.shortDomains := false;
     Registry.includeNumbers := false |}.

(* ================================================================= *)
(** ** The [analyze] command *)

(** The command line hands the action of [analyze] an object with the
    flags that were given; the action builds the request of [analyzeNiche]
    from it and awaits the analysis.  What it then does with the response,
    print it or write it to [--output], is left out. *)
Module Cli.

(** What [parseInt] made of the text after [--limit]. *)
Inductive parsed : Type :=
| NotANumber
| Integer (z : Z).

(** The options of the action; a flag that was not given is [None]. *)
Record options : Type := {
  keywords : option string;
  output : option string;
  limit : option parsed
}.

(** [s.split(',')] *)
Fixpoint split_comma (s : string) : list string :=
  match s with
  | EmptyString => [EmptyString]
  | String c rest =>
      if Ascii.eqb c ","%char then EmptyString :: split_comma rest
      else match split_comma rest with
           | part :: parts => String c part :: parts
           | [] => [String c EmptyString]
           end
  end.

(** [k.trim()] *)
Definition trim (k : string) : string :=
  string_of_list_ascii (Registry.trim (list_ascii_of_string k)).

(** [options.keywords ? options.keywords.split(',').map(k => k.trim()) : []];
    the empty string is falsy. *)
Definition keywords_of (o : options) : list string :=
  match keywords o with
  | Some (String _ _ as text) => map trim (split_comma text)
  | _ => []
  end.

(** [options.limit || 5]: zero and [NaN] are falsy. *)
Definition limit_of (o : options) : Z :=
  match limit o with
  | Some (Integer z) => if (z =? 0)%Z then 5%Z else z
  | _ => 5%Z
  end.

End Cli.

(** [{ keywords, limit: options.limit || 5 }] *)
Definition analyze_request (o : Cli.options) : request :=
  {| keywords := KeywordsArray (Cli.keywords_of o);
     limit := Some (Cli.limit_of o);
     prefs := None;
     includeKeywordData := false |}.

(** The analysis the action awaits. *)
Definition analyze (w : world) (o : Cli.options) : M response :=
  analyzeNiche w (Some (analyze_request o)).

(** The number of commas in a text. *)
Definition commas (text : string) : nat :=
  count_occ ascii_dec (list_ascii_of_string text) ","%char.

(** A keyword as the action passes it on: no comma in it and no white
    space at either end. *)
Definition passed_on (k : string) : Prop :=
  ~ In ","%char (list_ascii_of_string k) /\
  starts_clean (list_ascii_of_string k) /\
  starts_clean (rev (list_ascii_of_string k)).

(** The reply of [analyzeNiche] to a request without keywords. *)
Definition no_keywords : response :=
  Failure "No keywords provided for niche analysis" None.

(** [sitegenie analyze --keywords hydroponics --limit 2] *)
Definition hydroponics_options : Cli.options :=
  {| Cli.keywords := Some "hydroponics";
     Cli.output := None;
     Cli.limit := Some (Cli.Integer 2) |}.
(* ================================================================= *)
(** * Properties *)

(** ** Reasoning about numbers *)

Ltac plain t :=
  lazymatch t with
  | context [Rlt_dec _ _] => fail
  | context [Rle_dec _ _] => fail
  | context [Req_dec_T _ _] => fail
  | _ => idtac
  end.

(** Case analysis on every comparison of reals in the goal, innermost
    first; the cases the context contradicts are closed. *)
Ltac r_cases :=
  repeat match goal with
  | |- context [Rlt_dec ?a ?b] =>
      plain a; plain b; destruct (Rlt_dec a b); try lra
  | |- context [Rle_dec ?a ?b] =>
      plain a; plain b; destruct (Rle_dec a b); try lra
  | |- context [Req_dec_T ?a ?b] =>
      plain a; plain b; destruct (Req_dec_T a b); try lra
  end.

Ltac num_simpl :=
  cbv [add sub neg mul div lt le gt ge Math_min Math_max Math_log10 clamp
       scale_inf Rltb Rleb Reqb Rmin Rmax of_nat].

Ltac num_crush :=
  num_simpl; rewrite ?ln_1; r_cases;
  try reflexivity; try (f_equal; lra); try (exfalso; lra).

Lemma ln_10_pos : 0 < ln 10.
Proof.
  rewrite <- ln_1. apply ln_increasing; lra.
Qed.

Lemma log10_10000 : ln 10000 / ln 10 = 4.
Proof.
  replace 10000 with (10 ^ 4) by lra.
  rewrite ln_pow by lra. simpl INR.
  pose proof ln_10_pos. field. lra.
Qed.


(** [Math.min(hi, Math.max(lo, x))] is the spec's [clamp] whenever
    [lo <= hi], NaN included. *)
Lemma min_max_clamp (lo hi : R) (x : number) :
  lo <= hi -> Math_min (Fin hi) (Math_max (Fin lo) x) = clamp lo hi x.
Proof.
  intros H. destruct x; num_crush.
Qed.

Lemma clamp_within (lo hi : R) (x : number) :
  lo <= hi -> x <> NaN -> within lo hi (clamp lo hi x).
Proof.
  intros H Hx. unfold within.
  destruct x as [r| | |]; try congruence; num_simpl; r_cases;
    eexists; (split; [reflexivity | lra]).
Qed.

(** [Math.min(hi, x)] is NaN, [-Infinity], or a real that is at most
    [hi]. *)
Lemma Math_min_cases (hi : R) (x : number) :
  Math_min (Fin hi) x = NaN \/ Math_min (Fin hi) x = NegInf \/
  exists r, Math_min (Fin hi) x = Fin r /\ r <= hi.
Proof.
  destruct x as [r| | |]; simpl; auto.
  - right; right. exists (Rmin hi r). split; [reflexivity | apply Rmin_l].
  - right; right. exists hi. split; [reflexivity | lra].
Qed.

(** ** The competition scorer *)





(** C7.  When a backlink provider is configured and its request throws,
    [calculateCompetitionScore] returns exactly [competition * 80 + 20],
    whatever the volume and the CPC of the niche are; for a competition in
    [0,1] this lies in [20,100].  The request is the only effect. *)
Theorem competition_score_on_provider_error
    (w : world) (n : niche) (c : R) (message : string) (s : state) :
  truthy (AHREFS_API_KEY w) = true ->
  ahrefs_positions w (niche_name n) = Rejected message ->
  competition n = Fin c -> 0 <= c <= 1 ->
  calculateCompetitionScore w n s =
    (Returned (Fin (c * 80 + 20), n),
     {| draws := draws s;
        trace := trace s ++ [AhrefsPositions (niche_name n)] |}) /\
  20 <= c * 80 + 20 <= 100.
Proof.
  intros Hkey Hreq Hc Hc01. split; [| lra].
  unfold calculateCompetitionScore, try_catch, await, bind, emit.
  rewrite Hkey, Hreq, Hc. reflexivity.
Qed.

(** The niche of the scorer tests, with a provider whose request fails. *)
Lemma competition_score_on_provider_error_witness :
  calculateCompetitionScore provider_down hydroponics initial =
    (Returned (Fin (0.35 * 80 + 20), hydroponics),
     {| draws := 0; trace := [AhrefsPositions "hydroponics"] |}) /\
  20 <= 0.35 * 80 + 20 <= 100.
Proof.
  apply (competition_score_on_provider_error provider_down hydroponics 0.35
           "API request failed" initial);
    [reflexivity | reflexivity | reflexivity | lra].
Defined.

(** For the niche of the scorer tests the primary formula gives 24.1,
    where the fallback on a provider error gives 48. *)
Example competition_primary_hydroponics :
  competition_primary hydroponics = Fin 24.1.
Proof.
  unfold competition_primary, hydroponics; simpl.
  num_simpl. rewrite !log10_10000. r_cases; f_equal; lra.
Qed.

(** At volume 0 the primary formula is [-Infinity] and the score is 0. *)
Example competition_score_at_zero_volume :
  competition_primary no_search = Fin 0.
Proof.
  unfold competition_primary, no_search; simpl. num_crush.
Qed.

(** ** The monetization scorer *)

(** C1.  [evaluateMonetizationPotential] caps its sum at 10 and has no
    floor: for a niche with one monthly search, no CPC and no commercial
    term it returns -2, and with no search at all it returns [-Infinity];
    neither lies in [0,10]. *)
Theorem monetization_score_below_zero :
  evaluateMonetizationPotential one_search = Fin (-2) /\
  evaluateMonetizationPotential no_search = NegInf /\
  ~ within 0 10 (evaluateMonetizationPotential one_search) /\
  ~ within 0 10 (evaluateMonetizationPotential no_search).
Proof.
  assert (H1 : evaluateMonetizationPotential one_search = Fin (-2)).
  { unfold evaluateMonetizationPotential, commercialIntentScore, one_search.
    simpl. num_crush. }
  assert (H0 : evaluateMonetizationPotential no_search = NegInf).
  { unfold evaluateMonetizationPotential, commercialIntentScore, no_search.
    simpl. num_crush. }
  rewrite H1, H0. repeat split; trivial.
  - intros [r [E Hr]]. injection E as <-. lra.
  - intros [r [E _]]. discriminate.
Qed.

(** The cap holds: a finite monetization score is at most 10, and the
    score is never [+Infinity]. *)
Lemma monetization_score_cap (n : niche) :
  evaluateMonetizationPotential n = NaN \/
  evaluateMonetizationPotential n = NegInf \/
  exists r, evaluateMonetizationPotential n = Fin r /\ r <= 10.
Proof.
  unfold evaluateMonetizationPotential. apply Math_min_cases.
Qed.





(** ** The ranking example *)



(** ** Filter, rank, limit *)



Section SortFacts.

Context {A : Type}.
Variable compare : A -> A -> number.

Lemma sort_insert_perm (x : A) (l : list A) :
  Permutation (sort_insert compare x l) (x :: l).
Proof.
  induction l as [| y l IH]; cbn [sort_insert]; [reflexivity |].
  destruct (gt (compare x y) (Fin 0)); [| reflexivity].
  rewrite IH. apply perm_swap.
Qed.

Lemma Array_sort_perm (l : list A) : Permutation (Array_sort compare l) l.
Proof.
  induction l as [| x l IH]; cbn [Array_sort]; [reflexivity |].
  rewrite sort_insert_perm. now constructor.
Qed.

End SortFacts.








Lemma slice0_nonneg {A} (lim : Z) (l : list A) :
  (0 <= lim)%Z -> slice0 lim l = firstn (Z.to_nat lim) l.
Proof.
  intros H. unfold slice0.
  destruct (Z.ltb_spec lim 0); [lia | reflexivity].
Qed.



(** ** Input validation and the outer handler *)

(** C8.  With an empty keyword list, whatever the other options are,
    [analyzeNiche] returns [{success: false, error: 'No keywords provided
    for niche analysis'}] and leaves the state as it found it: no request
    to any collaborator, no random draw, no database call. *)
Theorem empty_keywords_rejected
    (w : world) (lim : option Z) (p : option preferences) (inc : bool)
    (s : state) :
  let options := Some {| keywords := KeywordsArray [];
                         limit := lim;
                         prefs := p;
                         includeKeywordData := inc |} in
  analyzeNiche w options s =
    (Returned (Failure "No keywords provided for niche analysis" None), s) /\
  success (Failure "No keywords provided for niche analysis" None) = false.
Proof.
  split; reflexivity.
Qed.

(** C10.  [analyzeNiche] never throws: for every argument, every world and
    every state it returns a response.  When the keywords are missing,
    null, not an array or empty the response is the validation failure;
    when the options themselves are undefined, or anything inside the
    [try] block throws, the response is the failure built from the
    message of the exception. *)
Theorem analyzeNiche_never_throws
    (w : world) (options : option request) (s : state) :
  exists r s',
    analyzeNiche w options s = (Returned r, s') /\
    (options = None ->
     r = Failure ("Niche analysis failed: " ++ TypeError) (Some TypeError)) /\
    (forall o, options = Some o -> invalid_keywords (keywords o) = true ->
     r = Failure "No keywords provided for niche analysis" None /\ s' = s) /\
    (forall e s1, analyzeNiche_body w options s = (Thrown e, s1) ->
     r = Failure ("Niche analysis failed: " ++ e) (Some e) /\ s' = s1) /\
    (forall r1 s1, analyzeNiche_body w options s = (Returned r1, s1) ->
     r = r1 /\ s' = s1).
Proof.
  unfold analyzeNiche, try_catch.
  assert (Hinv : forall o, options = Some o ->
                 invalid_keywords (keywords o) = true ->
                 analyzeNiche_body w options s =
                 (Returned (Failure "No keywords provided for niche analysis"
                              None), s)).
  { intros o -> Hk. unfold analyzeNiche_body.
    destruct (keywords o) as [| | | [| k ks]]; try reflexivity.
    discriminate. }
  destruct (analyzeNiche_body w options s) as [[r1 | e] s1] eqn:E.
  - exists r1, s1. split; [reflexivity |].
    split; [| split; [| split]].
    + intros ->. discriminate.
    + intros o Ho Hk. specialize (Hinv o Ho Hk). now injection Hinv.
    + discriminate.
    + intros r2 s2 H. now injection H.
  - exists (Failure ("Niche analysis failed: " ++ e) (Some e)), s1.
    split; [reflexivity |].
    split; [| split; [| split]].
    + intros ->. unfold analyzeNiche_body, throw in E. now injection E as <- _.
    + intros o Ho Hk. specialize (Hinv o Ho Hk). discriminate.
    + intros e2 s2 H. now injection H as <- <-.
    + discriminate.
Qed.

(** ** The domain scorer *)

(** C9.  [scoreDomain] is a function of its argument alone; it scores
    "short.com" 8.5 and "averylongdomainnamewithoutbreaks.com" 6.7, and
    every score lies between 0 and 10. *)
Theorem scoreDomain_example_and_range :
  (Domain.scoreDomain "short.com" == 8.5)%Q /\
  (Domain.scoreDomain "averylongdomainnamewithoutbreaks.com" == 6.7)%Q /\
  (Domain.scoreDomain "averylongdomainnamewithoutbreaks.com"
   < Domain.scoreDomain "short.com")%Q /\
  forall domain : string,
    (0 <= Domain.scoreDomain domain <= 10)%Q.
Proof.
  split; [vm_compute; reflexivity |].
  split; [vm_compute; reflexivity |].
  split; [vm_compute; reflexivity |].
  intros domain. unfold Domain.scoreDomain. split.
  - apply Q.le_max_l.
  - apply Q.max_lub; [discriminate | apply Q.le_min_l].
Qed.

(** ** Persistence *)

(** Evaluation of the pipeline on given inputs: everything is computed but
    the arithmetic on reals. *)
Ltac run :=
  lazy -[evaluateMonetizationPotential competition_primary Math_min Math_max
         add sub mul div Math_log10 Math_floor ge gt lt le toFixed2 of_nat
         Rplus Rmult Rdiv Rminus Ropp Rinv IZR Q2R INR ln weighted
         by_weighted String.append planner_niche planner_scored].

(** The same for a computation that starts in a state left abstract. *)
Ltac run_from_state :=
  lazy -[evaluateMonetizationPotential competition_primary Math_min Math_max
         add sub mul div Math_log10 Math_floor ge gt lt le toFixed2 of_nat
         Rplus Rmult Rdiv Rminus Ropp Rinv IZR Q2R INR ln weighted
         by_weighted String.append app].

Lemma planner_niche_monetization :
  evaluateMonetizationPotential planner_niche = Fin 6.
Proof.
  unfold evaluateMonetizationPotential, commercialIntentScore, planner_niche.
  simpl. num_simpl. rewrite !log10_10000.
  r_cases; f_equal; lra.
Qed.

Lemma planner_analysis :
  analysis store_failing ["hydroponics"] 2 {| industry := None |} initial =
    (Returned
       ([planner_record], Some [planner_scored]),
     {| draws := 1;
        trace := [PlannerSearch "hydroponics"; PlannerRelated "hydroponics";
                  RandomDraw] |}).
Proof.
  assert (Hge : ge (evaluateMonetizationPotential planner_niche) (Fin 6)
                = true).
  { rewrite planner_niche_monetization. num_simpl; r_cases; reflexivity. }
  unfold analysis. run. fold planner_niche.
  rewrite Hge. reflexivity.
Qed.

Lemma planner_save_fails (s : state) :
  saveAnalysisResults store_failing [planner_scored] s =
    (Thrown "Database error",
     {| draws := draws s;
        trace := trace s ++ [DbConnect; DbQuery Begin;
                             DbQuery (SelectNicheId "hydroponics");
                             DbQuery Rollback; DbRelease] |}).
Proof.
  destruct s as [d t]. unfold saveAnalysisResults. run_from_state.
  now rewrite <- !app_assoc.
Qed.

(** C2 as the code has it.  [saveAnalysisResults] rethrows after the
    rollback and [analyzeNiche] awaits it inside its [try] block: when
    saving is enabled, the analysis has produced its filtered niches and
    the save throws, [analyzeNiche] returns the failure response built from
    the error, not the recommendations. *)
Theorem persistence_failure_surfaces
    (w : world) (o : request) (k : string) (ks : list string)
    (valid : list keyword_data) (filtered : list scored_niche)
    (e : string) (s s1 s2 : state) :
  keywords o = KeywordsArray (k :: ks) ->
  SAVE_ANALYSIS_RESULTS w = Some "true" ->
  analysis w (k :: ks) (limit_or_default o) (preferences_or_default o) s =
    (Returned (valid, Some filtered), s1) ->
  saveAnalysisResults w filtered s1 = (Thrown e, s2) ->
  analyzeNiche w (Some o) s =
    (Returned (Failure ("Niche analysis failed: " ++ e) (Some e)), s2) /\
  success (Failure ("Niche analysis failed: " ++ e) (Some e)) = false.
Proof.
  intros Hk Hsave Han Hthrow. split; [| reflexivity].
  unfold analyzeNiche, try_catch, analyzeNiche_body.
  rewrite Hk, Hsave. unfold bind at 1. rewrite Han.
  cbn [String.eqb Ascii.eqb Bool.eqb]. unfold bind at 1.
  now rewrite Hthrow.
Qed.

(** The run of the repository's test of a failing database: the rollback
    is attempted, the connection released, and the response is the
    failure. *)
Lemma persistence_failure_surfaces_witness :
  analyzeNiche store_failing (Some hydroponics_request) initial =
    (Returned (Failure ("Niche analysis failed: " ++ "Database error")
                 (Some "Database error")),
     {| draws := 1;
        trace := [PlannerSearch "hydroponics"; PlannerRelated "hydroponics";
                  RandomDraw; DbConnect; DbQuery Begin;
                  DbQuery (SelectNicheId "hydroponics");
                  DbQuery Rollback; DbRelease] |}) /\
  success (Failure ("Niche analysis failed: " ++ "Database error")
             (Some "Database error")) = false.
Proof.
  apply (persistence_failure_surfaces store_failing hydroponics_request
           "hydroponics" [] [planner_record] [planner_scored]
           "Database error" initial
           {| draws := 1;
              trace := [PlannerSearch "hydroponics";
                        PlannerRelated "hydroponics"; RandomDraw] |}).
  - reflexivity.
  - reflexivity.
  - exact planner_analysis.
  - exact (planner_save_fails _).
Defined.

(** ** From the scored candidates to the response *)

Lemma mapM_present (l : list scored_niche) (recs : list Rec.t) (s s' : state) :
  mapM present l s = (Returned recs, s') ->
  s' = s /\
  Forall2 (fun n r => exists ks,
             related_keywords (base n) = Some ks /\ r = entry n ks) l recs.
Proof.
  revert recs s'. induction l as [| n l IH]; intros recs s' H.
  - cbn in H. injection H as <- <-. split; [reflexivity | constructor].
  - cbn [mapM] in H. unfold bind at 1 in H. unfold present at 1 in H.
    destruct (related_keywords (base n)) as [ks |] eqn:Eks;
      [| discriminate].
    cbn [ret] in H. unfold bind at 1 in H.
    destruct (mapM present l s) as [[recs' | e] s1] eqn:El; [| discriminate].
    cbn in H. injection H as <- <-.
    destruct (IH _ _ eq_refl) as [-> HF]. split; [reflexivity |].
    constructor; [| exact HF]. exists ks. now split.
Qed.

(** What [analysis] hands to the persistence step is step 4 applied to the
    scored niches. *)
Lemma analysis_filtered (w : world) (keywords : list string) (lim : Z)
    (p : preferences) (valid : list keyword_data)
    (filtered : list scored_niche) (s s1 : state) :
  analysis w keywords lim p s = (Returned (valid, Some filtered), s1) ->
  exists scoredNiches, filtered = filterNiches lim scoredNiches.
Proof.
  unfold analysis. unfold bind at 1.
  destruct (mapM (fetchKeywordData w) keywords s) as [[kd | e] s0];
    [| discriminate].
  destruct (filter kd_success kd) as [| d ds]; [discriminate |].
  unfold bind at 1.
  destruct (generateNicheRecommendations w (d :: ds) p s0) as [[ns | e] s2];
    [| discriminate].
  unfold bind at 1.
  destruct (mapM (score_niche w) ns s2) as [[sc | e] s3]; [| discriminate].
  cbn. intros H. injection H as _ <- _. now exists sc.
Qed.

(** The entries of a successful response are, in order, the entries of the
    niches step 4 selected, under the requested limit or the default. *)
Lemma recommendations_of_success (w : world) (o : request) (s s' : state)
    (timestamp : string) (recs : list Rec.t)
    (kd : option (list keyword_summary)) :
  analyzeNiche w (Some o) s = (Returned (Success timestamp recs kd), s') ->
  exists scoredNiches,
    Forall2 (fun n r => exists ks,
               related_keywords (base n) = Some ks /\ r = entry n ks)
      (filterNiches (limit_or_default o) scoredNiches) recs.
Proof.
  unfold analyzeNiche, try_catch, analyzeNiche_body.
  destruct (keywords o) as [| | | [| k ks]]; try discriminate.
  unfold bind at 1.
  destruct (analysis w (k :: ks) (limit_or_default o)
              (preferences_or_default o) s)
    as [[[valid [filtered |]] | e] s1] eqn:Han; try discriminate.
  destruct (analysis_filtered _ _ _ _ _ _ _ _ Han) as [sc ->].
  unfold bind at 1.
  match goal with
  | |- context [(if ?c then _ else _) s1] =>
      destruct ((if c then saveAnalysisResults w
                             (filterNiches (limit_or_default o) sc)
                 else ret tt) s1) as [[[] | e] s2]
  end; try discriminate.
  unfold bind at 1.
  destruct (mapM present (filterNiches (limit_or_default o) sc) s2)
    as [[recs' | e] s3] eqn:Ep; try discriminate.
  cbn. intros H. injection H as _ <- _ _.
  exists sc. now destruct (mapM_present _ _ _ _ Ep).
Qed.

(** Only scores of at least 6 pass the filter of step 4: the monetization
    score of a niche that reaches the response lies in [6,10]. *)
Lemma monetization_score_after_filter (lim : Z)
    (scoredNiches : list scored_niche) (n : scored_niche) :
  In n (filterNiches lim scoredNiches) ->
  monetization_potential n = evaluateMonetizationPotential (base n) ->
  within 6 10 (monetization_potential n).
Proof.
  intros Hin Hmon.
  assert (Hf : In n (filter (fun n => ge (monetization_potential n) (Fin 6))
                       scoredNiches)).
  { unfold filterNiches, slice0 in Hin.
    eapply Permutation_in; [apply Array_sort_perm |].
    destruct (lim <? 0)%Z;
      match type of Hin with
      | In _ (firstn ?k ?l) =>
          rewrite <- (firstn_skipn k l); apply in_or_app; now left
      end. }
  apply filter_In in Hf. destruct Hf as [_ Hge].
  destruct (monetization_score_cap (base n)) as [E | [E | [r [E Hr]]]];
    rewrite Hmon, E in *; try discriminate.
  exists r. split; [reflexivity |].
  revert Hge. num_simpl. destruct (Rle_dec 6 r); [lra | discriminate].
Qed.

(** A negative limit counts from the end of the array. *)
Example negative_limit_counts_from_end :
  slice0 (-1) [1%nat; 2%nat; 3%nat] = [1%nat; 2%nat].
Proof. reflexivity. Qed.

Example default_limit_is_five (k : keywords_field) (p : option preferences)
    (inc : bool) :
  limit_or_default {| keywords := k; limit := None; prefs := p;
                      includeKeywordData := inc |} = 5%Z.
Proof. reflexivity. Qed.

(** The substring match distinguishes case. *)
Example includes_is_case_sensitive :
  includes "best hydroponics systems" "best" = true /\
  includes "Best hydroponics systems" "best" = false.
Proof. split; reflexivity. Qed.

(* ================================================================= *)
(** * Further properties of the pipeline *)

(** ** Traces of computations *)

Section Emits.

Variable P : event -> Prop.

Lemma emits_ret {A} (a : A) : emits P (ret a).
Proof.
  intros s r s' H. injection H as <- <-. exists []. rewrite app_nil_r. auto.
Qed.

Lemma emits_throw {A} (e : string) : emits P (@throw A e).
Proof.
  intros s r s' H. injection H as <- <-. exists []. rewrite app_nil_r. auto.
Qed.

Lemma emits_bind {A B} (m : M A) (k : A -> M B) :
  emits P m -> (forall a, emits P (k a)) -> emits P (bind m k).
Proof.
  intros Hm Hk s r s' H. unfold bind in H.
  destruct (m s) as [[a | e] s1] eqn:Em.
  - destruct (Hm _ _ _ Em) as [evs1 [E1 F1]].
    destruct (Hk a _ _ _ H) as [evs2 [E2 F2]].
    exists (evs1 ++ evs2)%list. rewrite E2, E1, app_assoc.
    split; [reflexivity |].
    apply Forall_app; auto.
  - injection H as <- <-. eauto.
Qed.

Lemma emits_try_catch {A} (m : M A) (h : string -> M A) :
  emits P m -> (forall e, emits P (h e)) -> emits P (try_catch m h).
Proof.
  intros Hm Hh s r s' H. unfold try_catch in H.
  destruct (m s) as [[a | e] s1] eqn:Em.
  - injection H as <- <-. eauto.
  - destruct (Hm _ _ _ Em) as [evs1 [E1 F1]].
    destruct (Hh e _ _ _ H) as [evs2 [E2 F2]].
    exists (evs1 ++ evs2)%list. rewrite E2, E1, app_assoc.
    split; [reflexivity |].
    apply Forall_app; auto.
Qed.

Lemma emits_try_finally {A} (m : M A) (c : M unit) :
  emits P m -> emits P c -> emits P (try_finally m c).
Proof.
  intros Hm Hc s r s' H. unfold try_finally in H.
  destruct (m s) as [r1 s1] eqn:Em.
  destruct (c s1) as [[u | e] s2] eqn:Ec; injection H as <- <-;
    destruct (Hm _ _ _ Em) as [evs1 [E1 F1]];
    destruct (Hc _ _ _ Ec) as [evs2 [E2 F2]];
    exists (evs1 ++ evs2)%list; rewrite E2, E1, app_assoc;
    (split; [reflexivity | apply Forall_app; auto]).
Qed.

Lemma emits_emit (e : event) : P e -> emits P (emit e).
Proof.
  intros He s r s' H. injection H as <- <-. exists [e]. simpl. auto.
Qed.

Lemma emits_await {A} (e : event) (r : reply A) : P e -> emits P (await e r).
Proof.
  intros He. unfold await. apply emits_bind; [now apply emits_emit |].
  intros _. destruct r; [apply emits_throw | apply emits_ret].
Qed.

Lemma emits_mapM {A B} (f : A -> M B) (xs : list A) :
  (forall x, In x xs -> emits P (f x)) -> emits P (mapM f xs).
Proof.
  induction xs as [| x xs IH]; intros Hf; cbn [mapM].
  - apply emits_ret.
  - apply emits_bind; [apply Hf; now left |].
    intros y. apply emits_bind; [apply IH; intros; apply Hf; now right |].
    intros ys. apply emits_ret.
Qed.

Lemma emits_forEachM {A} (f : A -> M unit) (xs : list A) :
  (forall x, In x xs -> emits P (f x)) -> emits P (forEachM f xs).
Proof.
  induction xs as [| x xs IH]; intros Hf; cbn [forEachM].
  - apply emits_ret.
  - apply emits_bind; [apply Hf; now left |].
    intros _. apply IH. intros; apply Hf; now right.
Qed.

Lemma emits_filterM {A} (p : A -> M bool) (xs : list A) :
  (forall x, emits P (p x)) -> emits P (filterM p xs).
Proof.
  intros Hp. induction xs as [| x xs IH]; cbn [filterM].
  - apply emits_ret.
  - apply emits_bind; [apply Hp |].
    intros keep. apply emits_bind; [apply IH |].
    intros kept. apply emits_ret.
Qed.

End Emits.

Lemma emits_weaken {A} (P Q : event -> Prop) (m : M A) :
  (forall e, P e -> Q e) -> emits P m -> emits Q m.
Proof.
  intros HPQ Hm s r s' H. destruct (Hm _ _ _ H) as [evs [E F]].
  exists evs. split; [exact E |]. eapply Forall_impl; eauto.
Qed.

(** A computation that emits nothing leaves the trace as it found it. *)
Lemma emits_nothing {A} (m : M A) (s s' : state) (r : outcome A) :
  emits (fun _ => False) m -> m s = (r, s') -> trace s' = trace s.
Proof.
  intros Hm H. destruct (Hm _ _ _ H) as [evs [E F]].
  destruct evs as [| e evs]; [now rewrite app_nil_r in E |].
  inversion F; contradiction.
Qed.

Lemma never_throws_try_catch {A} (m : M A) (h : string -> M A) :
  (forall e, never_throws (h e)) -> never_throws (try_catch m h).
Proof.
  intros Hh s. unfold try_catch.
  destruct (m s) as [[a | e] s1]; [eauto |]. apply Hh.
Qed.

Lemma never_throws_ret {A} (a : A) : never_throws (ret a).
Proof. intros s. now exists a, s. Qed.

Lemma never_throws_bind {A B} (m : M A) (k : A -> M B) :
  never_throws m -> (forall a, never_throws (k a)) -> never_throws (bind m k).
Proof.
  intros Hm Hk s. unfold bind. destruct (Hm s) as [a [s1 ->]]. apply Hk.
Qed.

Lemma never_throws_mapM {A B} (f : A -> M B) (xs : list A) :
  (forall x, never_throws (f x)) -> never_throws (mapM f xs).
Proof.
  intros Hf. induction xs as [| x xs IH]; cbn [mapM].
  - apply never_throws_ret.
  - apply never_throws_bind; [apply Hf |]. intros y.
    apply never_throws_bind; [apply IH |]. intros ys. apply never_throws_ret.
Qed.

(** ** Which collaborators a run may call *)

Section Configured.

Variable w : world.

Lemma Math_random_configured : emits (configured w) (Math_random w).
Proof.
  intros s r s' H. injection H as <- <-. exists [RandomDraw].
  split; [reflexivity |]. repeat constructor.
Qed.

Lemma calculateCompetitionScore_configured (n : niche) :
  emits (configured w) (calculateCompetitionScore w n).
Proof.
  unfold calculateCompetitionScore.
  apply emits_try_catch; [| intros; apply emits_ret].
  destruct (truthy (AHREFS_API_KEY w)) eqn:Hkey; cbn [negb].
  - apply emits_bind; [now apply emits_await |].
    intros [pages |]; apply emits_ret.
  - apply emits_ret.
Qed.

Lemma calculateTrendingScore_configured (name : string) :
  emits (configured w) (calculateTrendingScore w name).
Proof.
  unfold calculateTrendingScore.
  apply emits_try_catch; [| intros; apply emits_ret].
  destruct (truthy (GOOGLE_TRENDS_API_KEY w)) eqn:Hkey; cbn [negb].
  - apply emits_bind; [now apply emits_await |].
    intros [y |]; [| apply emits_throw].
    destruct (regression_sums y) as [[[sumX sumY] sumXY] sumXX].
    apply emits_ret.
  - apply emits_bind; [apply Math_random_configured |].
    intros r. apply emits_ret.
Qed.

Lemma mockKeywordData_configured (k : string) :
  emits (configured w) (mockKeywordData w k).
Proof.
  unfold mockKeywordData.
  repeat (apply emits_bind; [apply Math_random_configured | intros ?]).
  apply emits_ret.
Qed.

Lemma keyword_texts_silent (P : event -> Prop) (rows : list planner_row) :
  emits P (keyword_texts rows).
Proof.
  induction rows as [| row rows IH]; cbn [keyword_texts].
  - apply emits_ret.
  - destruct (keyword_text row); [| apply emits_throw].
    apply emits_bind; [exact IH |]. intros; apply emits_ret.
Qed.

Lemma fetchRelatedKeywords_configured (k : string) :
  emits (configured w) (fetchRelatedKeywords w k).
Proof.
  unfold fetchRelatedKeywords.
  apply emits_try_catch; [| intros; apply emits_ret].
  destruct (truthy (KEYWORD_PLANNER_API_KEY w)) eqn:Hkey; cbn [negb].
  - apply emits_bind; [now apply emits_await |].
    intros [rows |]; [apply keyword_texts_silent | apply emits_ret].
  - apply emits_ret.
Qed.

Lemma fetchKeywordData_configured (k : string) :
  emits (configured w) (fetchKeywordData w k).
Proof.
  unfold fetchKeywordData.
  apply emits_try_catch; [| intros; apply mockKeywordData_configured].
  destruct (truthy (KEYWORD_PLANNER_API_KEY w)) eqn:Hkey; cbn [negb].
  - apply emits_bind; [now apply emits_await |].
    intros [[| row rows] |]; try apply emits_ret.
    apply emits_bind; [apply fetchRelatedKeywords_configured |].
    intros related. destruct (historical_metrics row);
      [apply emits_ret | apply emits_throw].
  - apply mockKeywordData_configured.
Qed.

Lemma related_niche_configured (k : string) (v c p : number)
    (related : list string) (rk : string) :
  emits (configured w) (related_niche w k v c p related rk).
Proof.
  unfold related_niche.
  destruct (_ || _); [apply emits_ret |].
  apply emits_bind; [apply Math_random_configured | intros r1].
  destruct (ge _ _); [| apply emits_ret].
  repeat (apply emits_bind; [apply Math_random_configured | intros ?]).
  apply emits_ret.
Qed.

Lemma generateNicheRecommendations_configured (l : list keyword_data)
    (p : preferences) :
  emits (configured w) (generateNicheRecommendations w l p).
Proof.
  unfold generateNicheRecommendations.
  apply emits_bind.
  - apply emits_mapM. intros [k v c cpc related | k e] _; cbn [niches_of].
    + apply emits_bind; [| intros; apply emits_ret].
      apply emits_mapM. intros; apply related_niche_configured.
    + apply emits_ret.
  - intros pushed. destruct (truthy (industry p)); [| apply emits_ret].
    destruct (industry p) as [i |]; [| apply emits_ret].
    apply emits_filterM. intros n. unfold matches_industry.
    destruct (includes _ _); [apply emits_ret |].
    destruct (related_keywords n); [apply emits_ret | apply emits_throw].
Qed.

Lemma score_niche_configured (n : niche) :
  emits (configured w) (score_niche w n).
Proof.
  unfold score_niche.
  apply emits_bind; [apply calculateCompetitionScore_configured |].
  intros scored.
  apply emits_bind; [apply calculateTrendingScore_configured |].
  intros t. apply emits_ret.
Qed.

Lemma analysis_configured (ks : list string) (lim : Z) (p : preferences) :
  emits (configured w) (analysis w ks lim p).
Proof.
  unfold analysis.
  apply emits_bind; [apply emits_mapM; intros; apply fetchKeywordData_configured |].
  intros results. destruct (filter kd_success results); [apply emits_ret |].
  apply emits_bind; [apply generateNicheRecommendations_configured |].
  intros niches.
  apply emits_bind; [apply emits_mapM; intros; apply score_niche_configured |].
  intros scoredNiches. apply emits_ret.
Qed.

Lemma present_silent (P : event -> Prop) (n : scored_niche) :
  emits P (present n).
Proof.
  unfold present. destruct (related_keywords (base n));
    [apply emits_ret | apply emits_throw].
Qed.

(** Every statement goes to the database, whatever it is. *)
Lemma query_emits (P : event -> Prop) (q : sql) :
  P (DbQuery q) -> emits P (query w q).
Proof.
  intros HP s r s' H. unfold query in H.
  exact (emits_await P (DbQuery q) _ HP s r s' H).
Qed.

Lemma save_niche_emits (P : event -> Prop) (n : scored_niche) :
  (forall q, is_data q -> P (DbQuery q)) -> emits P (save_niche w n).
Proof.
  intros HP. unfold save_niche.
  apply emits_bind; [apply query_emits, HP; exact I |].
  intros checkResult. apply emits_bind.
  - destruct checkResult as [| id rest].
    + apply emits_bind; [apply query_emits, HP; exact I |].
      intros [| id rest]; [apply emits_throw | apply emits_ret].
    + apply emits_bind; [apply query_emits, HP; exact I |].
      intros; apply emits_ret.
  - intros nicheId. apply emits_bind.
    + destruct (related_keywords (base n)) as [[| k ks] |];
        try apply emits_ret.
      apply emits_bind; [apply query_emits, HP; exact I |].
      intros _. apply emits_forEachM. intros kw _.
      apply emits_bind; [apply query_emits, HP; exact I |].
      intros; apply emits_ret.
    + intros _. destruct (top_competitors (base n)) as [| c cs];
        [apply emits_ret |].
      apply emits_bind; [apply query_emits, HP; exact I |].
      intros _. apply emits_forEachM. intros comp _.
      apply emits_bind; [apply query_emits, HP; exact I |].
      intros; apply emits_ret.
Qed.

Lemma saveAnalysisResults_emits (P : event -> Prop)
    (niches : list scored_niche) :
  P DbConnect -> P DbRelease -> (forall q, P (DbQuery q)) ->
  emits P (saveAnalysisResults w niches).
Proof.
  intros Hc Hr Hq s r s' H. unfold saveAnalysisResults in H.
  destruct (await DbConnect (pool_connect w) s) as [[u | e] s1] eqn:Ec.
  - destruct (emits_await P DbConnect _ Hc _ _ _ Ec) as [evs1 [E1 F1]].
    assert (Hbody : emits P
              (try_finally
                 (try_catch
                    (query w Begin;;;
                     forEachM (save_niche w) niches;;;
                     query w Commit;;; ret tt)
                    (fun error => query w Rollback;;; throw error))
                 (emit DbRelease))).
    { apply emits_try_finally; [| now apply emits_emit].
      apply emits_try_catch.
      - apply emits_bind; [now apply query_emits |]. intros _.
        apply emits_bind.
        + apply emits_forEachM. intros n _. apply save_niche_emits. auto.
        + intros _. apply emits_bind; [now apply query_emits |].
          intros; apply emits_ret.
      - intros e. apply emits_bind; [now apply query_emits |].
        intros; apply emits_throw. }
    destruct (Hbody _ _ _ H) as [evs2 [E2 F2]].
    exists (evs1 ++ evs2)%list. rewrite E2, E1, app_assoc.
    split; [reflexivity | apply Forall_app; auto].
  - injection H as <- <-.
    exact (emits_await P DbConnect _ Hc _ _ _ Ec).
Qed.

(** X1.  Every request [analyzeNiche] makes goes to a collaborator the world is
    configured for: the keyword planner, the backlink provider and the
    trends endpoint are only called when their key is set, and the
    database only when [SAVE_ANALYSIS_RESULTS] is the string 'true'. *)
Theorem analyzeNiche_calls_configured_only (options : option request) :
  emits (configured w) (analyzeNiche w options).
Proof.
  unfold analyzeNiche.
  apply emits_try_catch; [| intros; apply emits_ret].
  unfold analyzeNiche_body. destruct options as [o |]; [| apply emits_throw].
  destruct (keywords o) as [| | | [| k ks]]; try apply emits_ret.
  apply emits_bind; [apply analysis_configured |].
  intros [valid [filtered |]]; [| apply emits_ret].
  apply emits_bind.
  - destruct (SAVE_ANALYSIS_RESULTS w) as [v |] eqn:Hsave;
      [| apply emits_ret].
    destruct (String.eqb v "true") eqn:Hv; [| apply emits_ret].
    apply String.eqb_eq in Hv. subst v.
    apply saveAnalysisResults_emits; cbn; auto.
  - intros _. apply emits_bind.
    + apply emits_mapM. intros; apply present_silent.
    + intros; apply emits_ret.
Qed.

End Configured.

(** ** The trending scorer *)

(** X2.  When a trends provider is configured and its request is rejected, or
    its body does not parse to a timeline, [calculateTrendingScore] returns
    the neutral 5. *)
Theorem trending_score_on_provider_error
    (w : world) (name : string) (s : state) :
  truthy (GOOGLE_TRENDS_API_KEY w) = true ->
  (forall y, trends_explore w name <> Resolved (Some y)) ->
  calculateTrendingScore w name s =
    (Returned (Fin 5), after s (TrendsExplore name)).
Proof.
  intros Hkey Hbad.
  unfold calculateTrendingScore, try_catch, await, bind, emit, after.
  rewrite Hkey. cbn [negb].
  destruct (trends_explore w name) as [msg | [y |]]; try reflexivity.
  now destruct (Hbad y).
Qed.

Lemma trending_score_on_provider_error_witness :
  calculateTrendingScore (trends_world (Rejected "API request failed"))
    "hydroponics" initial =
    (Returned (Fin 5), after initial (TrendsExplore "hydroponics")).
Proof.
  apply (trending_score_on_provider_error
           (trends_world (Rejected "API request failed")) "hydroponics"
           initial);
    [reflexivity | intros y; discriminate].
Defined.




(** X4.  With a trends provider that answers with a timeline, the score is
    clamped: it is NaN or a number in [0,10]. *)
Theorem trending_score_with_provider
    (w : world) (name : string) (y : list number) (s : state) :
  truthy (GOOGLE_TRENDS_API_KEY w) = true ->
  trends_explore w name = Resolved (Some y) ->
  exists score,
    calculateTrendingScore w name s =
      (Returned score, after s (TrendsExplore name)) /\
    (score = NaN \/ within 0 10 score).
Proof.
  intros Hkey Hy.
  unfold calculateTrendingScore, try_catch, await, bind, emit, after.
  rewrite Hkey, Hy. cbn [negb ret].
  destruct (regression_sums y) as [[[sumX sumY] sumXY] sumXX].
  eexists. split; [reflexivity |].
  rewrite min_max_clamp by lra.
  match goal with |- clamp _ _ ?x = _ \/ _ => destruct x eqn:E end;
    try (right; apply clamp_within; [lra | discriminate]).
  now left.
Qed.

Lemma trending_score_with_provider_witness :
  exists score,
    calculateTrendingScore (trends_world (Resolved (Some rising_series)))
      "hydroponics" initial =
      (Returned score, after initial (TrendsExplore "hydroponics")) /\
    (score = NaN \/ within 0 10 score).
Proof.
  apply (trending_score_with_provider
           (trends_world (Resolved (Some rising_series))) "hydroponics"
           rising_series initial); reflexivity.
Defined.

(** X5.  A timeline with a single finite point, or none, gives NaN: the average
    or the slope is [0 / 0], which the clamp lets through and the [catch]
    block does not see. *)
Theorem trending_score_of_short_timeline
    (w : world) (name : string) (y : list number) (s : state) :
  truthy (GOOGLE_TRENDS_API_KEY w) = true ->
  trends_explore w name = Resolved (Some y) ->
  Forall finite y -> (List.length y <= 1)%nat ->
  calculateTrendingScore w name s =
    (Returned NaN, after s (TrendsExplore name)).
Proof.
  intros Hkey Hy Hfin Hlen.
  unfold calculateTrendingScore, try_catch, await, bind, emit, after.
  rewrite Hkey, Hy. cbn [negb ret].
  destruct y as [| y0 [| y1 y]]; [| | simpl in Hlen; lia].
  - cbn. do 2 f_equal. num_simpl. simpl INR. r_cases; reflexivity.
  - inversion Hfin as [| ? ? [r ->] _]; subst.
    cbn. do 2 f_equal. num_simpl. simpl INR. r_cases; reflexivity.
Qed.

Lemma trending_score_of_short_timeline_witness :
  calculateTrendingScore (trends_world (Resolved (Some [Fin 60])))
    "hydroponics" initial =
    (Returned NaN, after initial (TrendsExplore "hydroponics")).
Proof.
  apply (trending_score_of_short_timeline
           (trends_world (Resolved (Some [Fin 60]))) "hydroponics"
           [Fin 60] initial).
  - reflexivity.
  - reflexivity.
  - repeat constructor. now exists 60.
  - simpl. lia.
Defined.

(** ** The competition scorer with a backlink provider *)

Lemma firstn_length_le {A} (n : nat) (l : list A) :
  (List.length (firstn n l) <= n)%nat.
Proof.
  rewrite length_firstn. lia.
Qed.

(** X6.  When the backlink provider answers with pages, the niche receives the
    first ten of them as its competitors, in order, and nothing else of it
    changes; the score is capped at 100 but has no floor: it is NaN,
    [-Infinity] or a number that is at most 100.  An answer without pages
    gives [competition * 100] and leaves the niche as it was. *)
Theorem competition_score_with_provider
    (w : world) (n : niche) (s : state) :
  truthy (AHREFS_API_KEY w) = true ->
  (forall pages,
     ahrefs_positions w (niche_name n) = Resolved (Some pages) ->
     exists score,
       calculateCompetitionScore w n s =
         (Returned (score,
                    set_top_competitors n
                      (map competitor_of_page (firstn 10 pages))),
          after s (AhrefsPositions (niche_name n))) /\
       (List.length (map competitor_of_page (firstn 10 pages)) <= 10)%nat /\
       (score = NaN \/ score = NegInf \/
        exists r, score = Fin r /\ r <= 100)) /\
  (ahrefs_positions w (niche_name n) = Resolved None ->
   calculateCompetitionScore w n s =
     (Returned (mul (competition n) (Fin 100), n),
      after s (AhrefsPositions (niche_name n)))).
Proof.
  intros Hkey. split.
  - intros pages Hp.
    unfold calculateCompetitionScore, try_catch, await, bind, emit, after.
    rewrite Hkey, Hp. cbn [negb ret]. eexists. split; [reflexivity |].
    split; [rewrite length_map; apply firstn_length_le |].
    apply Math_min_cases.
  - intros Hp.
    unfold calculateCompetitionScore, try_catch, await, bind, emit, after.
    now rewrite Hkey, Hp.
Qed.

Lemma competition_score_with_provider_witness :
  (forall pages,
     ahrefs_positions (ahrefs_world (Resolved (Some [unlinked_page])))
       (niche_name hydroponics) = Resolved (Some pages) ->
     exists score,
       calculateCompetitionScore
         (ahrefs_world (Resolved (Some [unlinked_page]))) hydroponics
         initial =
         (Returned (score,
                    set_top_competitors hydroponics
                      (map competitor_of_page (firstn 10 pages))),
          after initial (AhrefsPositions (niche_name hydroponics))) /\
       (List.length (map competitor_of_page (firstn 10 pages)) <= 10)%nat /\
       (score = NaN \/ score = NegInf \/
        exists r, score = Fin r /\ r <= 100)) /\
  (ahrefs_positions (ahrefs_world (Resolved (Some [unlinked_page])))
     (niche_name hydroponics) = Resolved None ->
   calculateCompetitionScore
     (ahrefs_world (Resolved (Some [unlinked_page]))) hydroponics initial =
     (Returned (mul (competition hydroponics) (Fin 100), hydroponics),
      after initial (AhrefsPositions (niche_name hydroponics)))).
Proof.
  apply (competition_score_with_provider
           (ahrefs_world (Resolved (Some [unlinked_page]))) hydroponics
           initial).
  reflexivity.
Defined.





(** ** Keyword data *)

Lemma Int_part_lower (x : R) (z : Z) :
  IZR z <= x -> (z <= Int_part x)%Z.
Proof.
  intros H. destruct (base_Int_part x) as [_ Hx].
  assert (Hlt : IZR z < IZR (Int_part x) + 1) by lra.
  rewrite <- plus_IZR in Hlt. apply lt_IZR in Hlt. lia.
Qed.



Lemma mockKeywordData_returns (w : world) (k : string) (s : state) :
  exists v c p related s',
    mockKeywordData w k s = (Returned (KeywordOk k v c p related), s').
Proof.
  unfold mockKeywordData, bind, Math_random, ret.
  repeat eexists.
Qed.

Lemma keyword_texts_result (rows : list planner_row) (s : state) :
  (exists texts,
     keyword_texts rows s = (Returned texts, s) /\
     map keyword_text rows = map Some texts) \/
  (keyword_texts rows s = (Thrown TypeError, s) /\
   In None (map keyword_text rows)).
Proof.
  induction rows as [| row rows IH]; cbn [keyword_texts map].
  - left. now exists [].
  - destruct (keyword_text row) as [text |].
    + unfold bind. destruct IH as [[texts [-> E]] | [-> Hin]].
      * left. exists (text :: texts). cbn [ret map]. now rewrite E.
      * right. split; [reflexivity | now right].
    + right. split; [reflexivity | now left].
Qed.

Lemma fetchRelatedKeywords_never_throws (w : world) (k : string) :
  never_throws (fetchRelatedKeywords w k).
Proof.
  unfold fetchRelatedKeywords. apply never_throws_try_catch.
  intros e. apply never_throws_ret.
Qed.

(** X9.  [fetchRelatedKeywords] never throws.  Without a planner key it asks
    nobody and returns the fourteen keywords built from the prefixes and
    suffixes.  With a key it makes one request and returns the texts of
    all the rows of the answer, or the empty list: when the request is
    rejected, when the answer has no results, and as soon as one row lacks
    its keyword. *)
Theorem fetchRelatedKeywords_result (w : world) (k : string) (s : state) :
  (truthy (KEYWORD_PLANNER_API_KEY w) = false ->
   fetchRelatedKeywords w k s = (Returned (mockRelated k), s) /\
   List.length (mockRelated k) = 14%nat) /\
  (truthy (KEYWORD_PLANNER_API_KEY w) = true ->
   exists texts,
     fetchRelatedKeywords w k s =
       (Returned texts, after s (PlannerRelated k)) /\
     ((exists rows,
         planner_related w k = Resolved (Some rows) /\
         map keyword_text rows = map Some texts) \/
      (texts = [] /\
       forall rows, planner_related w k = Resolved (Some rows) ->
                    In None (map keyword_text rows)))).
Proof.
  split; intros Hkey.
  - unfold fetchRelatedKeywords, try_catch. rewrite Hkey. now split.
  - unfold fetchRelatedKeywords, try_catch, await, bind, emit.
    rewrite Hkey. cbn [negb]. fold (after s (PlannerRelated k)).
    destruct (planner_related w k) as [msg | [rows |]].
    + exists []. split; [reflexivity |]. right. split; [reflexivity |].
      discriminate.
    + destruct (keyword_texts_result rows (after s (PlannerRelated k)))
        as [[texts [E Hm]] | [E Hin]]; cbn [throw ret]; rewrite E.
      * exists texts. split; [reflexivity |]. left. now exists rows.
      * exists []. split; [reflexivity |]. right. split; [reflexivity |].
        intros rows' H. now injection H as <-.
    + exists []. split; [reflexivity |]. right. split; [reflexivity |].
      discriminate.
Qed.

Lemma fetchKeywordData_outcome (w : world) (k : string) (s : state) :
  exists d s',
    fetchKeywordData w k s = (Returned d, s') /\
    kd_keyword d = k /\
    (kd_success d = false <->
     truthy (KEYWORD_PLANNER_API_KEY w) = true /\ no_planner_result w k).
Proof.
  unfold fetchKeywordData, try_catch, no_planner_result.
  destruct (truthy (KEYWORD_PLANNER_API_KEY w)) eqn:Hkey; cbn [negb].
  - unfold await, bind, emit. fold (after s (PlannerSearch k)).
    destruct (planner_search w k) as [msg | [[| row rows] |]] eqn:Hs;
      cbn [throw ret].
    + destruct (mockKeywordData_returns w k (after s (PlannerSearch k)))
        as [v [c [p [rel [s' E]]]]].
      rewrite E. eexists _, _. split; [reflexivity |]. split; [reflexivity |].
      cbn. split; [discriminate | intros [_ [H | H]]; discriminate].
    + eexists _, _. split; [reflexivity |]. split; [reflexivity |].
      cbn. split; auto.
    + destruct (fetchRelatedKeywords_never_throws w k
                  (after s (PlannerSearch k))) as [rel [s1 E1]].
      rewrite E1. destruct (historical_metrics row) as [metrics |].
      * eexists _, _. split; [reflexivity |]. split; [reflexivity |].
        cbn. split; [discriminate | intros [_ [H | H]]; discriminate].
      * cbn [throw].
        destruct (mockKeywordData_returns w k s1) as [v [c [p [r' [s' E]]]]].
        rewrite E. eexists _, _. split; [reflexivity |].
        split; [reflexivity |].
        cbn. split; [discriminate | intros [_ [H | H]]; discriminate].
    + eexists _, _. split; [reflexivity |]. split; [reflexivity |].
      cbn. split; auto.
  - destruct (mockKeywordData_returns w k s) as [v [c [p [rel [s' E]]]]].
    rewrite E. eexists _, _. split; [reflexivity |]. split; [reflexivity |].
    cbn. split; [discriminate | intros [H _]; discriminate].
Qed.

(** X10.  [fetchKeywordData] never throws and its record carries the keyword it
    was asked for.  The record is a failure in one case only: a planner
    key is set and the search resolved with no result.  A rejected
    request, a row without metrics and a missing key all end in mock
    data. *)
Theorem fetchKeywordData_failure_iff (w : world) (k : string) (s : state) :
  exists d s',
    fetchKeywordData w k s = (Returned d, s') /\
    kd_keyword d = k /\
    (kd_success d = false <->
     truthy (KEYWORD_PLANNER_API_KEY w) = true /\ no_planner_result w k).
Proof.
  exact (fetchKeywordData_outcome w k s).
Qed.


(** ** Candidate generation *)

Lemma related_niche_result (w : world) (k : string) (v c p : number)
    (related : list string) (rk : string) (s : state) :
  In rk related ->
  exists ns s',
    related_niche w k v c p related rk s = (Returned ns, s') /\
    Forall (derived_niche_of (KeywordOk k v c p related)) ns.
Proof.
  intros Hin. unfold related_niche.
  destruct (String.length rk <? 5)%nat eqn:Hlen; cbn [orb].
  { exists [], s. now split. }
  destruct (String.eqb rk k) eqn:Heq.
  { exists [], s. now split. }
  unfold bind, Math_random.
  match goal with |- context [if ?c then _ else _] => destruct c eqn:Hge end.
  - eexists _, _. cbn [ret]. split; [reflexivity |].
    constructor; [| constructor]. unfold derived_niche_of.
    cbn [niche_name monthly_search_volume top_competitors related_keywords].
    apply Nat.ltb_ge in Hlen. apply String.eqb_neq in Heq.
    repeat split; auto.
    eexists. split; [reflexivity |]. unfold take.
    split; [apply firstn_length_le |]. split.
    + intros H. apply (In_nth_error) in H. destruct H as [i H].
      assert (Hf : In rk (filter (fun k0 => negb (String.eqb k0 rk)) related)).
      { rewrite <- (firstn_skipn 5). apply in_or_app. left.
        eapply nth_error_In; eauto. }
      apply filter_In in Hf. destruct Hf as [_ Hf].
      now rewrite String.eqb_refl in Hf.
    + intros x Hx.
      assert (Hf : In x (filter (fun k0 => negb (String.eqb k0 rk)) related)).
      { rewrite <- (firstn_skipn 5). apply in_or_app. now left. }
      now apply filter_In in Hf.
  - eexists [], _. cbn [ret]. split; [reflexivity | constructor].
Qed.

Lemma related_niches_result (w : world) (k : string) (v c p : number)
    (related sub : list string) (s : state) :
  incl sub related ->
  exists nss s',
    mapM (related_niche w k v c p related) sub s = (Returned nss, s') /\
    Forall (derived_niche_of (KeywordOk k v c p related)) (List.concat nss).
Proof.
  revert s. induction sub as [| rk sub IH]; intros s Hincl; cbn [mapM].
  - exists [], s. now split.
  - destruct (related_niche_result w k v c p related rk s) as [ns [s1 [E F]]].
    { apply Hincl. now left. }
    destruct (IH s1) as [nss [s2 [E2 F2]]].
    { intros x Hx. apply Hincl. now right. }
    unfold bind. rewrite E, E2. exists (ns :: nss), s2.
    split; [reflexivity |]. cbn [List.concat]. apply Forall_app. now split.
Qed.

Lemma niches_of_result (w : world) (d : keyword_data) (s : state) :
  exists ns s',
    niches_of w d s = (Returned ns, s') /\
    Forall (fun n => main_niche_of d n \/ derived_niche_of d n) ns /\
    (kd_success d = true -> exists n, In n ns /\ main_niche_of d n).
Proof.
  destruct d as [k v c p related | k e]; cbn [niches_of].
  - destruct (related_niches_result w k v c p related related s
                (incl_refl _)) as [nss [s' [E F]]].
    unfold bind. rewrite E. eexists _, _. cbn [ret].
    split; [reflexivity |]. split.
    + constructor; [now left |].
      eapply Forall_impl; [| exact F]. now right.
    + intros _. eexists. split; [now left | reflexivity].
  - exists [], s. repeat split; [constructor | discriminate].
Qed.

Lemma all_niches_result (w : world) (l : list keyword_data) (s : state) :
  exists nss s',
    mapM (niches_of w) l s = (Returned nss, s') /\
    Forall (fun n => exists d, In d l /\
                     (main_niche_of d n \/ derived_niche_of d n))
      (List.concat nss) /\
    (forall d, In d l -> kd_success d = true ->
               exists n, In n (List.concat nss) /\ main_niche_of d n).
Proof.
  revert s. induction l as [| d l IH]; intros s; cbn [mapM].
  - exists [], s. repeat split; [constructor | intros d []].
  - destruct (niches_of_result w d s) as [ns [s1 [E [F Hm]]]].
    destruct (IH s1) as [nss [s2 [E2 [F2 Hm2]]]].
    unfold bind. rewrite E, E2. exists (ns :: nss), s2. cbn [ret].
    split; [reflexivity |]. cbn [List.concat]. split.
    + apply Forall_app. split.
      * eapply Forall_impl; [| exact F]. intros n Hn. exists d.
        split; [now left | exact Hn].
      * eapply Forall_impl; [| exact F2]. intros n [d' [Hin Hn]].
        exists d'. split; [now right | exact Hn].
    + intros d' [<- | Hin] Hs.
      * destruct (Hm Hs) as [n [Hn Hmain]]. exists n.
        split; [apply in_or_app; now left | exact Hmain].
      * destruct (Hm2 d' Hin Hs) as [n [Hn Hmain]]. exists n.
        split; [apply in_or_app; now right | exact Hmain].
Qed.

Lemma industry_filter_result (i : string) (ns : list niche) (s : state) :
  Forall (fun n => related_keywords n <> None) ns ->
  exists kept,
    filterM (matches_industry i) ns s = (Returned kept, s) /\
    incl kept ns /\ Forall (mentions i) kept.
Proof.
  induction ns as [| n ns IH]; intros Hall; cbn [filterM].
  - exists []. repeat split; [apply incl_refl | constructor].
  - inversion Hall as [| ? ? Hn Hns]; subst.
    destruct (IH Hns) as [kept [E [Hincl F]]].
    assert (Hm : exists b, matches_industry i n s = (Returned b, s) /\
                           (b = true -> mentions i n)).
    { unfold matches_industry, mentions.
      destruct (includes (niche_name n) i); [exists true; auto |].
      destruct (related_keywords n) as [ks |]; [| congruence].
      eexists. split; [reflexivity |]. intros H. right. now exists ks. }
    destruct Hm as [b [Eb Hb]]. unfold bind. rewrite Eb, E. cbn [ret].
    destruct b.
    + exists (n :: kept). split; [reflexivity |]. split.
      * intros x [<- | Hx]; [now left | right; now apply Hincl].
      * constructor; auto.
    + exists kept. split; [reflexivity |]. split; [| exact F].
      intros x Hx. right. now apply Hincl.
Qed.

Lemma origin_has_related (d : keyword_data) (n : niche) :
  main_niche_of d n \/ derived_niche_of d n -> related_keywords n <> None.
Proof.
  destruct d as [k v c p related | k e]; cbn; [| tauto].
  intros [-> | [_ [_ [_ [_ [_ [others [E _]]]]]]]]; [discriminate |].
  rewrite E. discriminate.
Qed.

(** X11.  [generateNicheRecommendations] never throws.  Every niche it returns
    is either the niche of one of the keyword records or derived from one
    of that record's related keywords (a name of five characters or more
    that differs from the keyword, a volume of at least 1000, at most six
    related keywords of its own).  With no industry preference every
    successful record is represented by its own niche; with one, every
    niche returned mentions the industry in its name or in a related
    keyword. *)
Theorem generateNicheRecommendations_niches
    (w : world) (l : list keyword_data) (p : preferences) (s : state) :
  exists niches s',
    generateNicheRecommendations w l p s = (Returned niches, s') /\
    Forall (fun n => exists d, In d l /\
                     (main_niche_of d n \/ derived_niche_of d n)) niches /\
    (truthy (industry p) = false ->
     forall d, In d l -> kd_success d = true ->
               exists n, In n niches /\ main_niche_of d n) /\
    (forall i, truthy (industry p) = true -> industry p = Some i ->
               Forall (mentions i) niches).
Proof.
  unfold generateNicheRecommendations.
  destruct (all_niches_result w l s) as [nss [s1 [E [F Hm]]]].
  unfold bind. rewrite E.
  destruct (truthy (industry p)) eqn:Ht.
  - destruct (industry p) as [i |] eqn:Hi; [| discriminate].
    destruct (industry_filter_result i (List.concat nss) s1)
      as [kept [Ek [Hincl Fk]]].
    { eapply Forall_impl; [| exact F]. intros n [d [_ Hn]].
      eapply origin_has_related; eauto. }
    rewrite Ek. exists kept, s1. split; [reflexivity |].
    split; [| split].
    + rewrite Forall_forall in *. intros n Hn. apply F, Hincl, Hn.
    + discriminate.
    + intros i' _ Hi'. now injection Hi' as <-.
  - exists (List.concat nss), s1. cbn [ret]. split; [reflexivity |].
    split; [exact F |]. split; [intros _; exact Hm | discriminate].
Qed.

(** ** The persistence protocol *)

Lemma query_trace (w : world) (q : sql) (s s' : state) (r : outcome (list Z)) :
  query w q s = (r, s') -> trace s' = (trace s ++ [DbQuery q])%list.
Proof.
  unfold query, await, bind, emit. cbn.
  destruct (client_query w (trace s) q); intros H; now injection H as _ <-.
Qed.

Lemma data_events (evs : list event) :
  Forall (fun e => exists q, e = DbQuery q /\ is_data q) evs ->
  exists data, evs = map DbQuery data /\ Forall is_data data.
Proof.
  induction 1 as [| e evs [q [-> Hq]] _ [data [-> Hd]]].
  - now exists [].
  - exists (q :: data). split; [reflexivity | now constructor].
Qed.

Lemma save_loop_trace (w : world) (niches : list scored_niche)
    (s s' : state) (r : outcome unit) :
  forEachM (save_niche w) niches s = (r, s') ->
  exists data,
    trace s' = (trace s ++ map DbQuery data)%list /\ Forall is_data data.
Proof.
  intros H.
  assert (He : emits (fun e => exists q, e = DbQuery q /\ is_data q)
                 (forEachM (save_niche w) niches)).
  { apply emits_forEachM. intros n _. apply save_niche_emits. eauto. }
  destruct (He _ _ _ H) as [evs [E F]].
  destruct (data_events evs F) as [data [-> Hd]]. eauto.
Qed.

Lemma rollback_rethrows (w : world) (error : string) (s s' : state)
    (r : outcome unit) :
  (query w Rollback ;;; throw error) s = (r, s') ->
  (exists e, r = Thrown e) /\
  trace s' = (trace s ++ [DbQuery Rollback])%list.
Proof.
  unfold bind. destruct (query w Rollback s) as [[rows | e] s1] eqn:E;
    intros H; injection H as <- <-;
    (split; [eauto | exact (query_trace _ _ _ _ _ E)]).
Qed.

Lemma saveAnalysisResults_protocol (w : world) (niches : list scored_niche)
    (s s' : state) (r : outcome unit) :
  saveAnalysisResults w niches s = (r, s') ->
  (exists message,
     pool_connect w = Rejected message /\ r = Thrown message /\
     trace s' = (trace s ++ [DbConnect])%list) \/
  (exists data tail,
     Forall is_data data /\
     trace s' =
       (trace s ++ [DbConnect; DbQuery Begin] ++ map DbQuery data ++ tail)%list
     /\
     match r with
     | Returned _ => tail = [DbQuery Commit; DbRelease]
     | Thrown _ =>
         tail = [DbQuery Rollback; DbRelease] \/
         tail = [DbQuery Commit; DbQuery Rollback; DbRelease]
     end).
Proof.
  unfold saveAnalysisResults.
  pose proof (query_trace w Begin) as Hb.
  pose proof (query_trace w Commit) as Hcm.
  pose proof (save_loop_trace w niches) as Hl.
  pose proof (rollback_rethrows w) as Hr.
  set (begin := query w Begin) in *.
  set (commit := query w Commit) in *.
  set (loop := forEachM (save_niche w) niches) in *.
  set (handler := fun error : string => query w Rollback ;;; throw error).
  change (forall error s s' r,
            handler error s = (r, s') ->
            (exists e, r = Thrown e) /\
            trace s' = (trace s ++ [DbQuery Rollback])%list) in Hr.
  clearbody begin commit loop handler.
  unfold await, try_finally, try_catch, bind, emit, ret, throw.
  destruct (pool_connect w) as [message | u] eqn:Hc.
  { intros H. injection H as <- <-. left. now exists message. }
  set (s1 := {| draws := draws s; trace := trace s ++ [DbConnect] |}).
  intros H. right.
  destruct (begin s1) as [[rows | e] s2] eqn:Eb;
    pose proof (Hb _ _ _ Eb) as Tb.
  2:{ destruct (handler e s2) as [r3 s3] eqn:Er.
      destruct (Hr _ _ _ _ Er) as [[e' ->] Tr].
      injection H as <- <-. exists [], [DbQuery Rollback; DbRelease].
      split; [constructor |]. split; [| now left].
      cbn [trace map app]. rewrite Tr, Tb. unfold s1. cbn [trace].
      now rewrite <- !app_assoc. }
  destruct (loop s2) as [[u' | e] s3] eqn:El;
    destruct (Hl _ _ _ El) as [data [Tl Hd]].
  2:{ destruct (handler e s3) as [r4 s4] eqn:Er.
      destruct (Hr _ _ _ _ Er) as [[e' ->] Tr].
      injection H as <- <-. exists data, [DbQuery Rollback; DbRelease].
      split; [exact Hd |]. split; [| now left].
      cbn [trace]. rewrite Tr, Tl, Tb. unfold s1. cbn [trace].
      now rewrite <- !app_assoc. }
  destruct (commit s3) as [[rows' | e] s4] eqn:Ec;
    pose proof (Hcm _ _ _ Ec) as Tc.
  - injection H as <- <-. exists data, [DbQuery Commit; DbRelease].
    split; [exact Hd |]. split; [| reflexivity].
    cbn [trace]. rewrite Tc, Tl, Tb. unfold s1. cbn [trace].
    now rewrite <- !app_assoc.
  - destruct (handler e s4) as [r5 s5] eqn:Er.
    destruct (Hr _ _ _ _ Er) as [[e' ->] Tr].
    injection H as <- <-.
    exists data, [DbQuery Commit; DbQuery Rollback; DbRelease].
    split; [exact Hd |]. split; [| now right].
    cbn [trace]. rewrite Tr, Tc, Tl, Tb. unfold s1. cbn [trace].
    now rewrite <- !app_assoc.
Qed.

(** X12.  [saveAnalysisResults] follows one protocol.  When the pool gives no
    connection it throws that error and sends nothing.  Otherwise it sends
    [BEGIN], then statements on rows, and ends in one of three ways: with
    [COMMIT] when it returns; with [ROLLBACK], or with a rejected [COMMIT]
    followed by [ROLLBACK], when it throws.  In each of the three the
    connection is released last, exactly once, and a call that returns
    has sent nothing after its [COMMIT]. *)
Theorem saveAnalysisResults_transaction (w : world)
    (niches : list scored_niche) (s s' : state) (r : outcome unit) :
  saveAnalysisResults w niches s = (r, s') ->
  (exists message,
     pool_connect w = Rejected message /\ r = Thrown message /\
     trace s' = (trace s ++ [DbConnect])%list) \/
  (exists data tail,
     Forall is_data data /\
     trace s' =
       (trace s ++ [DbConnect; DbQuery Begin] ++ map DbQuery data ++ tail)%list
     /\
     match r with
     | Returned _ => tail = [DbQuery Commit; DbRelease]
     | Thrown _ =>
         tail = [DbQuery Rollback; DbRelease] \/
         tail = [DbQuery Commit; DbQuery Rollback; DbRelease]
     end).
Proof.
  exact (saveAnalysisResults_protocol w niches s s' r).
Qed.

(** The failing store of the persistence test: the statement on rows that
    was sent is the [SELECT] that was rejected. *)
Lemma saveAnalysisResults_transaction_witness :
  let s' := {| draws := 0;
               trace := [DbConnect; DbQuery Begin;
                         DbQuery (SelectNicheId "hydroponics");
                         DbQuery Rollback; DbRelease] |} in
  (exists message,
     pool_connect store_failing = Rejected message /\
     @Thrown unit "Database error" = Thrown message /\
     trace s' = (trace initial ++ [DbConnect])%list) \/
  (exists data tail,
     Forall is_data data /\
     trace s' =
       (trace initial ++ [DbConnect; DbQuery Begin] ++ map DbQuery data
        ++ tail)%list /\
     (tail = [DbQuery Rollback; DbRelease] \/
      tail = [DbQuery Commit; DbQuery Rollback; DbRelease])).
Proof.
  exact (saveAnalysisResults_transaction store_failing [planner_scored]
           initial _ _ (planner_save_fails initial)).
Defined.

(** X13.  A niche saved without related keywords leaves the rows of
    [niche_keywords] alone, and one saved without competitors leaves
    those of [niche_competitors] alone, whatever else is saved with it:
    the stored lists are replaced only by a list that is not empty, never
    cleared. *)
Theorem save_niche_never_clears (w : world) (n : scored_niche) :
  (related_keywords (base n) = None \/ related_keywords (base n) = Some [] ->
   emits (fun e => forall q, e = DbQuery q -> ~ on_keywords q)
     (save_niche w n)) /\
  (top_competitors (base n) = [] ->
   emits (fun e => forall q, e = DbQuery q -> ~ on_competitors q)
     (save_niche w n)).
Proof.
  assert (Hq : forall (T : sql -> Prop) q, ~ T q ->
               emits (fun e => forall q, e = DbQuery q -> ~ T q)
                 (query w q)).
  { intros T q HT. apply query_emits. intros q' E. now injection E as <-. }
  split; intros Hnone; unfold save_niche.
  - apply emits_bind; [apply Hq; cbn; tauto |].
    intros checkResult. apply emits_bind.
    + destruct checkResult as [| id rest].
      * apply emits_bind; [apply Hq; cbn; tauto |].
        intros [| id rest]; [apply emits_throw | apply emits_ret].
      * apply emits_bind; [apply Hq; cbn; tauto |].
        intros; apply emits_ret.
    + intros nicheId. apply emits_bind.
      * destruct Hnone as [-> | ->]; apply emits_ret.
      * intros _. destruct (top_competitors (base n)) as [| c cs];
          [apply emits_ret |].
        apply emits_bind; [apply Hq; cbn; tauto |].
        intros _. apply emits_forEachM. intros comp _.
        apply emits_bind; [apply Hq; cbn; tauto |].
        intros; apply emits_ret.
  - apply emits_bind; [apply Hq; cbn; tauto |].
    intros checkResult. apply emits_bind.
    + destruct checkResult as [| id rest].
      * apply emits_bind; [apply Hq; cbn; tauto |].
        intros [| id rest]; [apply emits_throw | apply emits_ret].
      * apply emits_bind; [apply Hq; cbn; tauto |].
        intros; apply emits_ret.
    + intros nicheId. rewrite Hnone. apply emits_bind.
      * destruct (related_keywords (base n)) as [[| k ks] |];
          try apply emits_ret.
        apply emits_bind; [apply Hq; cbn; tauto |].
        intros _. apply emits_forEachM. intros kw _.
        apply emits_bind; [apply Hq; cbn; tauto |].
        intros; apply emits_ret.
      * intros _. apply emits_ret.
Qed.

(** ** The response of a successful analysis *)

Lemma mapM_Forall {A B} (f : A -> M B) (Q : B -> Prop) :
  (forall x s a s', f x s = (Returned a, s') -> Q a) ->
  forall xs s ys s', mapM f xs s = (Returned ys, s') -> Forall Q ys.
Proof.
  intros Hf. induction xs as [| x xs IH]; intros s ys s' H; cbn [mapM] in H.
  - injection H as <- _. constructor.
  - unfold bind at 1 in H. destruct (f x s) as [[a | e] s1] eqn:Ef;
      [| discriminate].
    unfold bind at 1 in H.
    destruct (mapM f xs s1) as [[ys' | e] s2] eqn:Em; [| discriminate].
    injection H as <- _. constructor; eauto.
Qed.

Lemma score_niche_monetization (w : world) (n : niche) (s s' : state)
    (x : scored_niche) :
  score_niche w n s = (Returned x, s') ->
  monetization_potential x = evaluateMonetizationPotential (base x).
Proof.
  unfold score_niche. unfold bind at 1.
  destruct (calculateCompetitionScore w n s) as [[[c n'] | e] s1];
    [| discriminate].
  unfold bind at 1. cbn [fst snd].
  destruct (calculateTrendingScore w (niche_name n') s1) as [[t | e] s2];
    [| discriminate].
  intros H. injection H as <- _. reflexivity.
Qed.

(** The niches behind a successful response: scored by the pipeline,
    selected by step 4, turned into entries one by one. *)
Lemma success_inversion (w : world) (o : request) (s s' : state)
    (timestamp : string) (recs : list Rec.t)
    (kd : option (list keyword_summary)) :
  analyzeNiche w (Some o) s = (Returned (Success timestamp recs kd), s') ->
  exists scoredNiches,
    Forall (fun n => monetization_potential n =
                     evaluateMonetizationPotential (base n)) scoredNiches /\
    Forall2 (fun n r => exists ks,
               related_keywords (base n) = Some ks /\ r = entry n ks)
      (filterNiches (limit_or_default o) scoredNiches) recs.
Proof.
  unfold analyzeNiche, try_catch, analyzeNiche_body.
  destruct (keywords o) as [| | | [| k ks]]; try discriminate.
  unfold bind at 1.
  destruct (analysis w (k :: ks) (limit_or_default o)
              (preferences_or_default o) s)
    as [[[valid [filtered |]] | e] s1] eqn:Han; try discriminate.
  assert (Hsc : exists sc,
            filtered = filterNiches (limit_or_default o) sc /\
            Forall (fun n => monetization_potential n =
                             evaluateMonetizationPotential (base n)) sc).
  { revert Han. unfold analysis. unfold bind at 1.
    destruct (mapM (fetchKeywordData w) (k :: ks) s) as [[ds | e] s0];
      [| discriminate].
    destruct (filter kd_success ds) as [| d ds']; [discriminate |].
    unfold bind at 1.
    destruct (generateNicheRecommendations w (d :: ds')
                (preferences_or_default o) s0) as [[ns | e] s2];
      [| discriminate].
    unfold bind at 1.
    destruct (mapM (score_niche w) ns s2) as [[sc | e] s3] eqn:Esc;
      [| discriminate].
    cbn. intros H. injection H as _ <- _. exists sc. split; [reflexivity |].
    eapply mapM_Forall; [| exact Esc].
    intros x sx a sx'. apply score_niche_monetization. }
  destruct Hsc as [sc [-> Hmon]].
  unfold bind at 1.
  match goal with
  | |- context [(if ?c then _ else _) s1] =>
      destruct ((if c then saveAnalysisResults w
                             (filterNiches (limit_or_default o) sc)
                 else ret tt) s1) as [[[] | e] s2]
  end; try discriminate.
  unfold bind at 1.
  destruct (mapM present (filterNiches (limit_or_default o) sc) s2)
    as [[recs' | e] s3] eqn:Ep; try discriminate.
  cbn. intros H. injection H as _ <- _ _.
  exists sc. split; [exact Hmon |]. now destruct (mapM_present _ _ _ _ Ep).
Qed.

Lemma toFixed2_within_6_10 (x : number) :
  within 6 10 x -> within 6 10 (toFixed2 x).
Proof.
  intros [r [-> Hr]]. unfold toFixed2, Rleb, Rltb.
  assert (Hbig : Rabs r < 10 ^ 21).
  { rewrite Rabs_right by lra. simpl. lra. }
  destruct (Rle_dec (10 ^ 21) (Rabs r)); [lra |].
  destruct (Rlt_dec r 0); [lra |].
  eexists. split; [reflexivity |].
  pose proof (Int_part_lower (r * 100 + / 2) 600 ltac:(lra)) as Hlo.
  destruct (base_Int_part (r * 100 + / 2)) as [Hhi _].
  assert (Hup : (Int_part (r * 100 + / 2) <= 1000)%Z).
  { assert (H : IZR (Int_part (r * 100 + / 2)) < IZR 1001) by lra.
    apply lt_IZR in H. lia. }
  apply IZR_le in Hlo, Hup. lra.
Qed.

Lemma planner_only_run :
  analyzeNiche planner_only (Some hydroponics_request) initial =
    (Returned (Success (now planner_only)
                 [entry planner_scored ["hydroponics"]] None),
     planner_only_final).
Proof.
  assert (Hge : ge (evaluateMonetizationPotential planner_niche) (Fin 6)
                = true).
  { rewrite planner_niche_monetization. num_simpl; r_cases; reflexivity. }
  unfold analyzeNiche, analyzeNiche_body, analysis, entry. run.
  fold planner_niche. rewrite Hge. reflexivity.
Qed.

(** X14.  A successful response is bounded: it has at most [limit]
    recommendations (5 when no limit is given), each with at most ten
    related keywords and at most five competitors. *)
Theorem success_response_bounds (w : world) (o : request) (s s' : state)
    (timestamp : string) (recs : list Rec.t)
    (kd : option (list keyword_summary)) :
  analyzeNiche w (Some o) s = (Returned (Success timestamp recs kd), s') ->
  (0 <= limit_or_default o)%Z ->
  (List.length recs <= Z.to_nat (limit_or_default o))%nat /\
  Forall (fun r => (List.length (Rec.related_keywords r) <= 10)%nat /\
                   (List.length (Rec.top_competitors r) <= 5)%nat) recs.
Proof.
  intros H Hlim. destruct (success_inversion _ _ _ _ _ _ _ H) as [sc [_ F]].
  split.
  - rewrite <- (Forall2_length F). unfold filterNiches.
    rewrite slice0_nonneg by assumption. apply firstn_length_le.
  - clear H. induction F as [| n r ns rs [ks [_ ->]] _ IH]; constructor; auto.
    unfold entry, take.
    cbn [Rec.related_keywords Rec.top_competitors].
    split; apply firstn_length_le.
Qed.

Lemma success_response_bounds_witness :
  (List.length [entry planner_scored ["hydroponics"]]
   <= Z.to_nat (limit_or_default hydroponics_request))%nat /\
  Forall (fun r => (List.length (Rec.related_keywords r) <= 10)%nat /\
                   (List.length (Rec.top_competitors r) <= 5)%nat)
    [entry planner_scored ["hydroponics"]].
Proof.
  apply (success_response_bounds planner_only hydroponics_request initial
           planner_only_final (now planner_only)
           [entry planner_scored ["hydroponics"]] None).
  - exact planner_only_run.
  - unfold limit_or_default, hydroponics_request. simpl. lia.
Defined.

(** X15.  Every recommendation of a successful response carries a monetization
    potential between 6 and 10: the filter of step 4 admits nothing below
    6, the scorer caps at 10, and the rounding to two decimals keeps
    both bounds. *)
Theorem success_response_monetization (w : world) (o : request)
    (s s' : state) (timestamp : string) (recs : list Rec.t)
    (kd : option (list keyword_summary)) :
  analyzeNiche w (Some o) s = (Returned (Success timestamp recs kd), s') ->
  Forall (fun r => within 6 10 (Rec.monetization_potential r)) recs.
Proof.
  intros H. destruct (success_inversion _ _ _ _ _ _ _ H) as [sc [Hmon F]].
  assert (Hin : Forall (fun n => within 6 10 (monetization_potential n))
                  (filterNiches (limit_or_default o) sc)).
  { rewrite Forall_forall. intros n Hn.
    apply (monetization_score_after_filter _ _ _ Hn).
    rewrite Forall_forall in Hmon. apply Hmon.
    unfold filterNiches, slice0 in Hn.
    assert (Hs : In n (Array_sort by_weighted
                         (filter (fun n => ge (monetization_potential n)
                                             (Fin 6)) sc))).
    { destruct (limit_or_default o <? 0)%Z;
        match type of Hn with
        | In _ (firstn ?k ?l) =>
            rewrite <- (firstn_skipn k l); apply in_or_app; now left
        end. }
    eapply Permutation_in in Hs; [| apply Array_sort_perm].
    now apply filter_In in Hs. }
  clear H Hmon. induction F as [| n r ns rs [ks [_ ->]] _ IH].
  - constructor.
  - inversion Hin; subst. constructor; [| now apply IH].
    unfold entry. cbn [Rec.monetization_potential].
    now apply toFixed2_within_6_10.
Qed.

Lemma success_response_monetization_witness :
  Forall (fun r => within 6 10 (Rec.monetization_potential r))
    [entry planner_scored ["hydroponics"]].
Proof.
  exact (success_response_monetization planner_only hydroponics_request
           initial planner_only_final (now planner_only)
           [entry planner_scored ["hydroponics"]] None planner_only_run).
Defined.

(** ** When an analysis finds no data *)

Lemma fetch_all_outcome (w : world) (ks : list string) (s : state) :
  exists ds s',
    mapM (fetchKeywordData w) ks s = (Returned ds, s') /\
    Forall2 (fun k d =>
               kd_success d = false <->
               truthy (KEYWORD_PLANNER_API_KEY w) = true /\
               no_planner_result w k) ks ds.
Proof.
  revert s. induction ks as [| k ks IH]; intros s; cbn [mapM].
  - exists [], s. split; [reflexivity | constructor].
  - destruct (fetchKeywordData_outcome w k s) as [d [s1 [E [_ Hd]]]].
    destruct (IH s1) as [ds [s2 [E2 F]]].
    unfold bind. rewrite E, E2. exists (d :: ds), s2.
    split; [reflexivity | now constructor].
Qed.

Lemma none_valid_iff (w : world) (ks : list string) (ds : list keyword_data) :
  Forall2 (fun k d =>
             kd_success d = false <->
             truthy (KEYWORD_PLANNER_API_KEY w) = true /\
             no_planner_result w k) ks ds ->
  (filter kd_success ds = [] <->
   Forall (fun k => truthy (KEYWORD_PLANNER_API_KEY w) = true /\
                    no_planner_result w k) ks).
Proof.
  induction 1 as [| k d ks ds Hd _ IH]; cbn [filter].
  - split; auto.
  - destruct (kd_success d) eqn:Hs.
    + split; [discriminate |]. intros H. inversion H as [| ? ? Hk _]; subst.
      apply Hd in Hk. discriminate.
    + rewrite IH. split.
      * intros H. constructor; [now apply Hd | exact H].
      * intros H. now inversion H.
Qed.

(** X16.  For a keyword list that is not empty, [analyzeNiche] reports 'Failed
    to retrieve valid data for any of the provided keywords' exactly when
    a planner key is set and the planner has no result for any of the
    keywords.  Rejected requests do not count: they fall back to mock
    data, as does a missing key. *)
Theorem no_valid_data_iff (w : world) (o : request) (k : string)
    (ks : list string) (s : state) :
  keywords o = KeywordsArray (k :: ks) ->
  exists r s',
    analyzeNiche w (Some o) s = (Returned r, s') /\
    (r = no_valid_data <->
     truthy (KEYWORD_PLANNER_API_KEY w) = true /\
     Forall (no_planner_result w) (k :: ks)).
Proof.
  intros Hk.
  destruct (fetch_all_outcome w (k :: ks) s) as [ds [s1 [E F]]].
  pose proof (none_valid_iff w _ _ F) as Hnone.
  assert (Hall : Forall (fun k0 => truthy (KEYWORD_PLANNER_API_KEY w) = true /\
                                   no_planner_result w k0) (k :: ks) <->
                 truthy (KEYWORD_PLANNER_API_KEY w) = true /\
                 Forall (no_planner_result w) (k :: ks)).
  { rewrite !Forall_forall. split.
    - intros H. split; [apply (H k); now left | intros x Hx; now apply H].
    - intros [H1 H2] x Hx. split; [exact H1 | now apply H2]. }
  assert (Hgoal : forall r : response,
            (r = no_valid_data <-> filter kd_success ds = []) ->
            (r = no_valid_data <->
             truthy (KEYWORD_PLANNER_API_KEY w) = true /\
             Forall (no_planner_result w) (k :: ks))).
  { intros r Hr. now rewrite Hr, Hnone, Hall. }
  clear Hall Hnone F.
  unfold analyzeNiche, try_catch, analyzeNiche_body. rewrite Hk.
  unfold bind at 1. unfold analysis. unfold bind at 1. rewrite E.
  destruct (filter kd_success ds) as [| d ds'] eqn:Hf.
  - cbn [ret]. eexists _, _. split; [reflexivity |]. apply Hgoal. now split.
  - unfold bind at 1.
    destruct (generateNicheRecommendations w (d :: ds')
                (preferences_or_default o) s1) as [[ns | e] s2].
    2:{ eexists _, _. split; [reflexivity |]. apply Hgoal.
        split; discriminate. }
    unfold bind at 1.
    destruct (mapM (score_niche w) ns s2) as [[sc | e] s3].
    2:{ eexists _, _. split; [reflexivity |]. apply Hgoal.
        split; discriminate. }
    cbn [ret]. unfold bind at 1.
    match goal with
    | |- context [(if ?c then _ else _) s3] =>
        destruct ((if c then saveAnalysisResults w
                               (filterNiches (limit_or_default o) sc)
                   else ret tt) s3) as [[[] | e] s4]
    end.
    2:{ eexists _, _. split; [reflexivity |]. apply Hgoal.
        split; discriminate. }
    unfold bind at 1.
    destruct (mapM present (filterNiches (limit_or_default o) sc) s4)
      as [[recs | e] s5].
    + cbn [ret]. eexists _, _. split; [reflexivity |]. apply Hgoal.
      split; discriminate.
    + eexists _, _. split; [reflexivity |]. apply Hgoal.
      split; discriminate.
Qed.

(** Offline, with mock data, the failure cannot occur. *)
Lemma no_valid_data_iff_witness :
  exists r s',
    analyzeNiche offline
      (Some {| keywords := KeywordsArray ["hydroponics"];
               limit := None; prefs := None;
               includeKeywordData := false |}) initial = (Returned r, s') /\
    (r = no_valid_data <->
     truthy (KEYWORD_PLANNER_API_KEY offline) = true /\
     Forall (no_planner_result offline) ["hydroponics"]).
Proof.
  apply (no_valid_data_iff offline
           {| keywords := KeywordsArray ["hydroponics"];
              limit := None; prefs := None;
              includeKeywordData := false |} "hydroponics" [] initial).
  reflexivity.
Defined.


(** ** The domain scorer, continued *)

Ltac split_ifs :=
  repeat match goal with
         | |- context [if ?b then _ else _] => destruct b
         end.

(** X17.  The adjustments of [scoreDomain] never take the score out of
    [2.2, 10]: the final clamp to [0, 10] changes nothing, and no domain
    scores below 2.2. *)
Theorem scoreDomain_never_clamps (domain : string) :
  (2.2 <= Domain.scoreDomain domain <= 10)%Q.
Proof.
  unfold Domain.scoreDomain. cbv zeta.
  split_ifs; vm_compute; split; discriminate.
Qed.

Lemma split_dot_plain (s : string) :
  no_dot s -> Domain.split_dot s = [s].
Proof.
  unfold no_dot, Domain.chars. induction s as [| c s IH]; intros H.
  - reflexivity.
  - cbn [list_ascii_of_string forallb] in H.
    apply andb_prop in H. destruct H as [Hc Hs].
    cbn [Domain.split_dot]. apply negb_true_iff in Hc. rewrite Hc.
    now rewrite (IH Hs).
Qed.

Lemma split_dot_label (name tld : string) :
  no_dot name -> no_dot tld ->
  Domain.split_dot (name ++ String "."%char tld) = [name; tld].
Proof.
  unfold no_dot at 1, Domain.chars. intros Hn Ht.
  induction name as [| c name IH].
  - cbn. now rewrite (split_dot_plain tld Ht).
  - cbn [list_ascii_of_string forallb] in Hn.
    apply andb_prop in Hn. destruct Hn as [Hc Hn].
    cbn [String.append Domain.split_dot]. apply negb_true_iff in Hc.
    rewrite Hc. now rewrite (IH Hn).
Qed.




(** ** Cleaning keywords for domain names *)

Lemma lower_is_clean (c : ascii) :
  Registry.kept (Registry.lower c) = true ->
  clean_char (Registry.lower c) = true /\
  Registry.lower (Registry.lower c) = Registry.lower c.
Proof.
  destruct c as [[] [] [] [] [] [] [] []]; vm_compute;
    intros H; (discriminate || (split; reflexivity)).
Qed.

Lemma trim_start_suffix (l : list ascii) :
  exists p, l = (p ++ Registry.trim_start l)%list.
Proof.
  induction l as [| c l [p IH]]; cbn [Registry.trim_start].
  - now exists [].
  - destruct (Registry.is_space c).
    + exists (c :: p). cbn. now rewrite <- IH.
    + now exists [].
Qed.

Lemma trim_start_clean (l : list ascii) :
  starts_clean (Registry.trim_start l).
Proof.
  induction l as [| c l IH]; cbn [Registry.trim_start]; [exact I |].
  destruct (Registry.is_space c) eqn:E; [exact IH | exact E].
Qed.

Lemma trim_start_fixed (l : list ascii) :
  starts_clean l -> Registry.trim_start l = l.
Proof.
  destruct l as [| c l]; cbn; [reflexivity |]. now intros ->.
Qed.

Lemma trim_incl (l : list ascii) (c : ascii) :
  In c (Registry.trim l) -> In c l.
Proof.
  unfold Registry.trim. intros H. apply in_rev in H.
  destruct (trim_start_suffix (rev (Registry.trim_start l))) as [p Hp].
  assert (H1 : In c (rev (Registry.trim_start l)))
    by (rewrite Hp; apply in_or_app; now right).
  apply in_rev in H1.
  destruct (trim_start_suffix l) as [q Hq].
  rewrite Hq. apply in_or_app. now right.
Qed.

Lemma trim_ends (l : list ascii) :
  starts_clean (Registry.trim l) /\ starts_clean (rev (Registry.trim l)).
Proof.
  unfold Registry.trim. rewrite rev_involutive.
  split; [| apply trim_start_clean].
  set (t := Registry.trim_start l).
  destruct (trim_start_suffix (rev t)) as [p Hp].
  pose proof (trim_start_clean l) as Ht. fold t in Ht.
  apply (f_equal (@rev ascii)) in Hp.
  rewrite rev_involutive, rev_app_distr in Hp.
  destruct (rev (Registry.trim_start (rev t))) as [| c u]; [exact I |].
  rewrite Hp in Ht. exact Ht.
Qed.

Lemma trim_fixed (l : list ascii) :
  starts_clean l -> starts_clean (rev l) -> Registry.trim l = l.
Proof.
  intros H1 H2. unfold Registry.trim.
  rewrite (trim_start_fixed l H1), (trim_start_fixed (rev l) H2).
  apply rev_involutive.
Qed.

Lemma map_fixed {A} (f : A -> A) (l : list A) :
  Forall (fun x => f x = x) l -> map f l = l.
Proof.
  induction 1 as [| x l Hx _ IH]; cbn; [reflexivity |]. now rewrite Hx, IH.
Qed.

Lemma filter_fixed {A} (f : A -> bool) (l : list A) :
  Forall (fun x => f x = true) l -> filter f l = l.
Proof.
  induction 1 as [| x l Hx _ IH]; cbn; [reflexivity |]. now rewrite Hx, IH.
Qed.

Lemma cleaned_chars (k : string) :
  Forall (fun c => Registry.kept c = true /\ clean_char c = true /\
                   Registry.lower c = c)
    (list_ascii_of_string (Registry.clean k)).
Proof.
  unfold Registry.clean. rewrite list_ascii_of_string_of_list_ascii.
  rewrite Forall_forall. intros c Hc. apply trim_incl in Hc.
  apply filter_In in Hc. destruct Hc as [Hin Hk].
  apply in_map_iff in Hin. destruct Hin as [c0 [<- _]].
  split; [exact Hk |]. now apply lower_is_clean.
Qed.

(** X19.  A cleaned keyword holds only lower-case letters, digits, underscores,
    hyphens and white space, with no white space at either end (white
    space inside it stays); cleaning it again changes nothing. *)
Theorem clean_keyword (k : string) :
  let cleaned := list_ascii_of_string (Registry.clean k) in
  Forall (fun c => clean_char c = true) cleaned /\
  starts_clean cleaned /\ starts_clean (rev cleaned) /\
  Registry.clean (Registry.clean k) = Registry.clean k.
Proof.
  cbv zeta. pose proof (cleaned_chars k) as Hc.
  assert (Hends : starts_clean (list_ascii_of_string (Registry.clean k)) /\
                  starts_clean (rev (list_ascii_of_string (Registry.clean k)))).
  { unfold Registry.clean. rewrite list_ascii_of_string_of_list_ascii.
    apply trim_ends. }
  split; [| split; [| split]]; try apply Hends.
  - eapply Forall_impl; [| exact Hc]. now intros c [_ [H _]].
  - unfold Registry.clean at 1.
    rewrite map_fixed
      by (eapply Forall_impl; [| exact Hc]; now intros c [_ [_ H]]).
    rewrite filter_fixed
      by (eapply Forall_impl; [| exact Hc]; now intros c [H _]).
    rewrite trim_fixed by apply Hends.
    apply string_of_list_ascii_of_string.
Qed.

(** ** Domain name options *)

Lemma nonempty_filter_nil (l : list string) :
  filter (fun k => (0 <? String.length k)%nat) l = [] <->
  Forall (fun k => k = EmptyString) l.
Proof.
  induction l as [| k l IH]; cbn [filter].
  - split; auto.
  - destruct k as [| c k]; cbn.
    + rewrite IH. split; [intros H; now constructor | intros H; now inversion H].
    + split; [discriminate | intros H; inversion H; discriminate].
Qed.

(** X20.  [generateDomainOptions] throws in one case only, and then a
    [TypeError]: there is a TLD to combine with and no keyword survives
    the cleaning, as for an empty keyword list under the default
    preferences.  In every other case it returns its options. *)
Theorem generateDomainOptions_throws_iff (random : nat -> Q)
    (keywordsList : list string) (p : Registry.preferences) :
  (Registry.generateDomainOptions random keywordsList p = Thrown TypeError
   <-> Forall (fun k => Registry.clean k = EmptyString) keywordsList /\
       TLDs_of p <> []) /\
  (forall e, Registry.generateDomainOptions random keywordsList p = Thrown e
             -> e = TypeError).
Proof.
  unfold Registry.generateDomainOptions, TLDs_of.
  set (tlds := match Registry.preferredTLDs p with
               | Some tlds => tlds
               | None => Registry.default_TLDs
               end).
  set (cleaned := filter (fun k => (0 <? String.length k)%nat)
                         (map Registry.clean keywordsList)).
  assert (Hnil : cleaned = [] <->
                 Forall (fun k => Registry.clean k = EmptyString)
                   keywordsList).
  { unfold cleaned. rewrite nonempty_filter_nil, Forall_map. reflexivity. }
  destruct cleaned as [| m cleaned']; cbn [nth_error].
  - destruct tlds as [| tld tlds'].
    + destruct (Registry.shortDomains p).
      * split; [| intros e He; discriminate].
        split; [discriminate | intros [_ Hne]; congruence].
      * split; [| intros e He; discriminate].
        split; [discriminate | intros [_ Hne]; congruence].
    + split; [| intros e He; now injection He].
      split; [intros _; split; [now apply Hnil | discriminate] | reflexivity].
  - assert (Hno : ~ Forall (fun k => Registry.clean k = EmptyString)
                      keywordsList).
    { intros Hall. apply Hnil in Hall. discriminate. }
    destruct (Registry.shortDomains p).
    + split; [| intros e He; discriminate].
      split; [discriminate | intros [Hall _]; contradiction].
    + split; [| intros e He; discriminate].
      split; [discriminate | intros [Hall _]; contradiction].
Qed.

Lemma with_TLDs_shape (tlds : list string) (label d : string) :
  In d (Registry.with_TLDs tlds label) ->
  exists tld, d = label ++ tld /\ In tld tlds /\
              (String.length label <= 63)%nat.
Proof.
  unfold Registry.with_TLDs, Registry.maxDomainLength.
  destruct (Nat.leb_spec (String.length label) 63) as [Hlen | Hlen];
    [| intros []].
  intros Hd. apply in_map_iff in Hd. destruct Hd as [tld [<- Hin]]. eauto.
Qed.

Lemma with_TLDs_nil (label : string) : Registry.with_TLDs [] label = [].
Proof.
  unfold Registry.with_TLDs. now destruct (_ <=? _)%nat.
Qed.

Lemma flat_map_with_TLDs_nil (labels : list string) :
  flat_map (Registry.with_TLDs []) labels = [].
Proof.
  induction labels as [| l labels IH]; cbn; [reflexivity |].
  now rewrite with_TLDs_nil, IH.
Qed.

Lemma pushed_no_TLDs (random : nat -> Q) (p : Registry.preferences)
    (cleaned : list string) :
  Registry.pushed random p [] cleaned = [].
Proof.
  unfold Registry.pushed. cbn [List.concat].
  assert (Hfold : forall l acc,
            fst (fold_left (Registry.pair_options random p [] cleaned) l acc)
            = fst acc).
  { induction l as [| ij l IH]; intros acc; cbn [fold_left]; [reflexivity |].
    rewrite IH. unfold Registry.pair_options.
    destruct (nth_error cleaned (fst ij)); [| reflexivity].
    destruct (nth_error cleaned (snd ij)); [| reflexivity].
    destruct (String.eqb s s0); [reflexivity |].
    unfold Registry.combinations. cbn [fst].
    rewrite flat_map_with_TLDs_nil. apply app_nil_r. }
  rewrite Hfold, with_TLDs_nil. cbn [fst app].
  assert (Hmap : forall (f : string -> string) (l : list string),
            flat_map (fun x => Registry.with_TLDs [] (f x)) l = []).
  { intros f l. induction l as [| x l IH]; cbn; [reflexivity |].
    now rewrite with_TLDs_nil, IH. }
  now rewrite !Hmap.
Qed.

Lemma nil_or_not {A} (l : list A) : l = [] \/ l <> [].
Proof.
  destruct l; [now left | right; discriminate].
Qed.

(** Every string [generateDomainOptions] pushes is [label ++ tld] for a
    label built from cleaned keywords, connectors, prefixes, suffixes and
    digits. *)
Section Pushed.

Variable random : nat -> Q.
Variable p : Registry.preferences.
Variable tlds : list string.
Variable cleaned : list string.

(** The labels have a property [L] as soon as the cleaned keywords, the
    fixed words and the digits have it and it survives concatenation. *)
Variable L : string -> Prop.
Hypothesis L_app : forall a b, L a -> L b -> L (a ++ b).
Hypothesis L_cleaned : Forall L cleaned.
Hypothesis L_words :
  Forall L (["-"; "and"; "undefined"] ++ Registry.prefixes
            ++ Registry.suffixes)%list.
Hypothesis L_digits : forall x, L (Registry.show_floor x).

Lemma with_TLDs_labelled (label : string) :
  L label -> Forall (labelled L tlds) (Registry.with_TLDs tlds label).
Proof.
  intros Hl. rewrite Forall_forall. intros d Hd.
  destruct (with_TLDs_shape _ _ _ Hd) as [tld [-> [Hin Hlen]]].
  now exists label, tld.
Qed.

Lemma L_word (word : string) :
  In word (["-"; "and"; "undefined"] ++ Registry.prefixes
           ++ Registry.suffixes)%list -> L word.
Proof.
  intros H. rewrite Forall_forall in L_words. now apply L_words.
Qed.

Lemma L_nth (i : nat) (k : string) : nth_error cleaned i = Some k -> L k.
Proof.
  intros H. apply nth_error_In in H.
  rewrite Forall_forall in L_cleaned. now apply L_cleaned.
Qed.

Lemma pair_options_labelled (acc : list string * nat) (ij : nat * nat) :
  Forall (labelled L tlds) (fst acc) ->
  Forall (labelled L tlds) (fst (Registry.pair_options random p tlds cleaned acc ij)).
Proof.
  intros Hacc. unfold Registry.pair_options.
  destruct (nth_error cleaned (fst ij)) as [ki |] eqn:Ei; [| exact Hacc].
  destruct (nth_error cleaned (snd ij)) as [kj |] eqn:Ej; [| exact Hacc].
  destruct (String.eqb ki kj); [exact Hacc |].
  pose proof (L_nth _ _ Ei) as Hi. pose proof (L_nth _ _ Ej) as Hj.
  unfold Registry.combinations. cbn [fst].
  apply Forall_app. split; [exact Hacc |].
  assert (Hand : L "and") by (apply L_word; cbn; tauto).
  assert (Hhy : L "-") by (apply L_word; cbn; tauto).
  rewrite Forall_forall. intros d Hd. apply in_flat_map in Hd.
  destruct Hd as [combo [Hc Hd]].
  assert (Hl : L combo).
  { cbn [List.concat app] in Hc. rewrite app_nil_r in Hc.
    destruct Hc as [<- | Hc]; [now apply L_app |].
    apply in_app_or in Hc. destruct Hc as [Hc | Hc].
    - destruct (Registry.useHyphens p); [| destruct Hc].
      destruct Hc as [<- | []]. apply L_app; [exact Hi |].
      now apply L_app.
    - destruct Hc as [<- | Hc].
      + apply L_app; [exact Hi |]. now apply L_app.
      + destruct (Registry.includeNumbers p); [| destruct Hc].
        destruct Hc as [<- | [<- | []]].
        * apply L_app; [exact Hi | apply L_digits].
        * apply L_app; [exact Hi |]. apply L_app; [exact Hj | apply L_digits]. }
  pose proof (with_TLDs_labelled combo Hl) as Hw.
  rewrite Forall_forall in Hw. now apply Hw.
Qed.

Lemma pairs_labelled (l : list (nat * nat)) (acc : list string * nat) :
  Forall (labelled L tlds) (fst acc) ->
  Forall (labelled L tlds)
    (fst (fold_left (Registry.pair_options random p tlds cleaned) l acc)).
Proof.
  revert acc. induction l as [| ij l IH]; intros acc Hacc; cbn [fold_left].
  - exact Hacc.
  - apply IH. now apply pair_options_labelled.
Qed.

Lemma pushed_labelled :
  (tlds <> [] -> exists m, nth_error cleaned 0 = Some m) ->
  Forall (labelled L tlds) (Registry.pushed random p tlds cleaned).
Proof.
  intros Hmain. destruct (nil_or_not tlds) as [Ht | Ht].
  { rewrite Ht, pushed_no_TLDs. constructor. }
  destruct (Hmain Ht) as [m Hm0].
  assert (Hm : L (Registry.show (nth_error cleaned 0))).
  { rewrite Hm0. cbn. now apply (L_nth 0). }
  unfold Registry.pushed. cbn [List.concat]. rewrite app_nil_r.
  apply Forall_app; split;
    [| apply Forall_app; split; [| apply Forall_app; split]].
  - now apply with_TLDs_labelled.
  - apply pairs_labelled. constructor.
  - rewrite Forall_forall. intros d Hd. apply in_flat_map in Hd.
    destruct Hd as [prefix [Hp Hd]].
    assert (Hl : L (prefix ++ Registry.show (nth_error cleaned 0))).
    { apply L_app; [| exact Hm]. apply L_word.
      apply in_or_app. right. apply in_or_app. now left. }
    pose proof (with_TLDs_labelled _ Hl) as Hw.
    rewrite Forall_forall in Hw. now apply Hw.
  - rewrite Forall_forall. intros d Hd. apply in_flat_map in Hd.
    destruct Hd as [suffix [Hp Hd]].
    assert (Hl : L (Registry.show (nth_error cleaned 0) ++ suffix)).
    { apply L_app; [exact Hm |]. apply L_word.
      apply in_or_app. right. apply in_or_app. now right. }
    pose proof (with_TLDs_labelled _ Hl) as Hw.
    rewrite Forall_forall in Hw. now apply Hw.
Qed.

End Pushed.

Lemma dedupe_incl (seen l : list string) (x : string) :
  In x (Registry.dedupe seen l) -> In x l /\ ~ In x seen.
Proof.
  revert seen. induction l as [| y l IH]; intros seen; cbn [Registry.dedupe].
  - intros [].
  - destruct (existsb (String.eqb y) seen) eqn:E.
    + intros H. destruct (IH _ H) as [H1 H2]. split; [now right | exact H2].
    + intros [<- | H].
      * split; [now left |]. intros Hin.
        assert (Hex : existsb (String.eqb y) seen = true).
        { apply existsb_exists. exists y. split; [exact Hin |].
          apply String.eqb_refl. }
        congruence.
      * destruct (IH _ H) as [H1 H2]. split; [now right |].
        intros Hin. apply H2. now right.
Qed.

Lemma dedupe_NoDup (seen l : list string) : NoDup (Registry.dedupe seen l).
Proof.
  revert seen. induction l as [| y l IH]; intros seen; cbn [Registry.dedupe].
  - constructor.
  - destruct (existsb (String.eqb y) seen); [apply IH |].
    constructor; [| apply IH].
    intros H. apply dedupe_incl in H. destruct H as [_ H]. apply H. now left.
Qed.

Lemma firstn_incl {A} (n : nat) (l : list A) (x : A) :
  In x (firstn n l) -> In x l.
Proof.
  intros H. rewrite <- (firstn_skipn n l). apply in_or_app. now left.
Qed.

Lemma firstn_NoDup {A} (n : nat) (l : list A) :
  NoDup l -> NoDup (firstn n l).
Proof.
  intros H. rewrite <- (firstn_skipn n l) in H.
  now apply NoDup_app_remove_r in H.
Qed.

(** What [generateDomainOptions] returns comes from what it pushed. *)
Lemma options_pushed (random : nat -> Q) (ks : list string)
    (p : Registry.preferences) (opts : list string) :
  Registry.generateDomainOptions random ks p = Returned opts ->
  let cleaned := filter (fun k => (0 <? String.length k)%nat)
                        (map Registry.clean ks) in
  (TLDs_of p <> [] -> exists m, nth_error cleaned 0 = Some m) /\
  incl opts (Registry.pushed random p (TLDs_of p) cleaned) /\
  (Registry.shortDomains p = true ->
   (List.length opts <= 20)%nat /\
   Forall (fun d => (String.length (Registry.label_of d) <= 15)%nat) opts) /\
  (Registry.shortDomains p = false ->
   (List.length opts <= 25)%nat /\ NoDup opts).
Proof.
  unfold Registry.generateDomainOptions. fold (TLDs_of p). cbv zeta.
  set (cleaned := filter (fun k => (0 <? String.length k)%nat)
                         (map Registry.clean ks)).
  intros H.
  assert (Hopts : opts =
            if Registry.shortDomains p
            then firstn 20
                   (filter (fun d => (String.length (Registry.label_of d)
                                      <=? 15)%nat)
                      (Registry.pushed random p (TLDs_of p) cleaned))
            else firstn 25
                   (Registry.dedupe []
                      (Registry.pushed random p (TLDs_of p) cleaned))).
  { destruct (nth_error cleaned 0), (TLDs_of p), (Registry.shortDomains p);
      try discriminate; now injection H. }
  split; [| split; [| split]].
  - intros Ht. destruct (nth_error cleaned 0) as [m |]; [now exists m |].
    destruct (TLDs_of p); [congruence | discriminate].
  - rewrite Hopts. intros d Hd. destruct (Registry.shortDomains p).
    + apply firstn_incl in Hd. now apply filter_In in Hd.
    + apply firstn_incl in Hd. now apply dedupe_incl in Hd.
  - intros Hs. rewrite Hs in Hopts. rewrite Hopts.
    split; [apply firstn_length_le |].
    rewrite Forall_forall. intros d Hd. apply firstn_incl in Hd.
    apply filter_In in Hd. destruct Hd as [_ Hd]. now apply Nat.leb_le in Hd.
  - intros Hs. rewrite Hs in Hopts. rewrite Hopts.
    split; [apply firstn_length_le |]. apply firstn_NoDup, dedupe_NoDup.
Qed.

(** X21.  The options [generateDomainOptions] returns are bounded: at most 25
    and without repetition by default; at most 20, each with a label of at
    most 15 characters, when short domains are preferred.  Every option is
    a label of at most 63 characters followed by one of the TLDs in
    force. *)
Theorem generateDomainOptions_bounds (random : nat -> Q)
    (keywordsList : list string) (p : Registry.preferences)
    (opts : list string) :
  Registry.generateDomainOptions random keywordsList p = Returned opts ->
  (List.length opts <= 25)%nat /\
  (Registry.shortDomains p = true ->
   (List.length opts <= 20)%nat /\
   Forall (fun d => (String.length (Registry.label_of d) <= 15)%nat) opts) /\
  (Registry.shortDomains p = false -> NoDup opts) /\
  Forall (fun d => exists label tld,
            d = label ++ tld /\ In tld (TLDs_of p) /\
            (String.length label <= 63)%nat) opts.
Proof.
  intros H. destruct (options_pushed _ _ _ _ H) as [Hm [Hi [Hs Hl]]].
  split; [| split; [| split]].
  - destruct (Registry.shortDomains p) eqn:E.
    + destruct (Hs eq_refl) as [Hlen _]. lia.
    + now destruct (Hl eq_refl).
  - exact Hs.
  - intros E. now destruct (Hl E).
  - assert (Hp : Forall (labelled (fun _ => True) (TLDs_of p))
                   (Registry.pushed random p (TLDs_of p)
                      (filter (fun k => (0 <? String.length k)%nat)
                         (map Registry.clean keywordsList)))).
    { apply pushed_labelled; auto.
      - rewrite Forall_forall. auto.
      - rewrite Forall_forall. auto. }
    rewrite Forall_forall in *. intros d Hd.
    destruct (Hp d (Hi d Hd)) as [label [tld [E [Hin [_ Hlen]]]]].
    now exists label, tld.
Qed.

Lemma generateDomainOptions_bounds_witness :
  let opts := ["hydroponics.io"; "hydroponics.net"; "hydroponics37.io";
               "hydroponics37.net"; "besthydroponics.io";
               "besthydroponics.net"; "tophydroponics.io";
               "tophydroponics.net"; "myhydroponics.io"; "myhydroponics.net";
               "thehydroponics.io"; "thehydroponics.net";
               "hydroponicshub.io"; "hydroponicshub.net";
               "hydroponicspro.io"; "hydroponicspro.net"; "hydroponicshq.io";
               "hydroponicshq.net"] in
  (List.length opts <= 25)%nat /\
  (Registry.shortDomains short_preferences = true ->
   (List.length opts <= 20)%nat /\
   Forall (fun d => (String.length (Registry.label_of d) <= 15)%nat) opts) /\
  (Registry.shortDomains short_preferences = false -> NoDup opts) /\
  Forall (fun d => exists label tld,
            d = label ++ tld /\ In tld (TLDs_of short_preferences) /\
            (String.length label <= 63)%nat) opts.
Proof.
  apply (generateDomainOptions_bounds steady ["hydroponics"; "gardening"]
           short_preferences).
  vm_compute. reflexivity.
Defined.

Lemma list_ascii_app (a b : string) :
  list_ascii_of_string (a ++ b)
  = (list_ascii_of_string a ++ list_ascii_of_string b)%list.
Proof.
  induction a as [| c a IH]; cbn; [reflexivity | now rewrite IH].
Qed.

Lemma no_dot_app (a b : string) : no_dot a -> no_dot b -> no_dot (a ++ b).
Proof.
  unfold no_dot, Domain.chars. intros Ha Hb.
  rewrite list_ascii_app, forallb_app. now rewrite Ha, Hb.
Qed.

Lemma no_dot_digits (d : Decimal.uint) :
  no_dot (NilEmpty.string_of_uint d).
Proof.
  unfold no_dot, Domain.chars.
  induction d; cbn; (reflexivity || exact IHd).
Qed.

Lemma no_dot_show_floor (x : Q) : no_dot (Registry.show_floor x).
Proof.
  unfold Registry.show_floor, NilEmpty.string_of_int.
  destruct (Z.to_int (Qfloor x)) as [d | d].
  - apply no_dot_digits.
  - apply (no_dot_app "-"); [reflexivity | apply no_dot_digits].
Qed.

Lemma no_dot_cleaned (k : string) : no_dot (Registry.clean k).
Proof.
  unfold no_dot, Domain.chars. apply forallb_forall. intros c Hc.
  pose proof (cleaned_chars k) as H. rewrite Forall_forall in H.
  destruct (H c Hc) as [_ [Hclean _]].
  destruct (Ascii.eqb c ".") eqn:E; [| reflexivity].
  apply Ascii.eqb_eq in E. subst c. discriminate.
Qed.

(** X22.  Every option [generateDomainOptions] returns splits back, at its
    first dot, into the label it was built from and the TLD it was given,
    whenever the TLDs in force are a dot followed by a name without dots,
    as the default ones are: the name and the TLD that
    [checkDomainAvailability] and [registerDomain] pass on reassemble to
    the option, the name has no dot and at most 63 characters, and the
    TLD is one of the TLDs in force. *)
Theorem generated_options_split_back (random : nat -> Q)
    (keywordsList : list string) (p : Registry.preferences)
    (opts : list string) :
  Registry.generateDomainOptions random keywordsList p = Returned opts ->
  Forall dotted (TLDs_of p) ->
  Forall (fun d =>
            d = Registry.name_part d ++ Registry.tld_part d /\
            In (Registry.tld_part d) (TLDs_of p) /\
            no_dot (Registry.name_part d) /\
            (String.length (Registry.name_part d) <= 63)%nat) opts.
Proof.
  intros H Hdot. destruct (options_pushed _ _ _ _ H) as [Hm [Hi _]].
  assert (Hp : Forall (labelled no_dot (TLDs_of p))
                 (Registry.pushed random p (TLDs_of p)
                    (filter (fun k => (0 <? String.length k)%nat)
                       (map Registry.clean keywordsList)))).
  { apply pushed_labelled; auto.
    - apply no_dot_app.
    - rewrite Forall_forall. intros k Hk. apply filter_In in Hk.
      destruct Hk as [Hk _]. apply in_map_iff in Hk.
      destruct Hk as [k0 [<- _]]. apply no_dot_cleaned.
    - repeat constructor.
    - apply no_dot_show_floor. }
  rewrite Forall_forall in *. intros d Hd.
  destruct (Hp d (Hi d Hd)) as [label [tld [-> [Hin [Hl Hlen]]]]].
  destruct (Hdot tld Hin) as [t [-> Ht]].
  unfold Registry.name_part, Registry.tld_part, Registry.label_of.
  rewrite (split_dot_label label t Hl Ht). cbn [nth nth_error Registry.show].
  repeat split; auto.
Qed.

Lemma generated_options_split_back_witness :
  Forall (fun d =>
            d = Registry.name_part d ++ Registry.tld_part d /\
            In (Registry.tld_part d) (TLDs_of Registry.no_preferences) /\
            no_dot (Registry.name_part d) /\
            (String.length (Registry.name_part d) <= 63)%nat)
    ["hydroponics.com"; "hydroponics.org"; "hydroponics.net";
     "hydroponics.io"; "besthydroponics.com"; "besthydroponics.org";
     "besthydroponics.net"; "besthydroponics.io"; "tophydroponics.com";
     "tophydroponics.org"; "tophydroponics.net"; "tophydroponics.io";
     "myhydroponics.com"; "myhydroponics.org"; "myhydroponics.net";
     "myhydroponics.io"; "thehydroponics.com"; "thehydroponics.org";
     "thehydroponics.net"; "thehydroponics.io"; "hydroponicsguide.com";
     "hydroponicsguide.org"; "hydroponicsguide.net"; "hydroponicsguide.io";
     "hydroponicshub.com"].
Proof.
  apply (generated_options_split_back steady ["hydroponics"]
           Registry.no_preferences).
  - vm_compute. reflexivity.
  - repeat constructor; eexists; (split; [reflexivity | reflexivity]).
Defined.

(** ** Sorting by a numeric key *)

Section KeySort.

Context {A : Type}.
Variable compare : A -> A -> number.
Variable key : A -> R.
Hypothesis compare_key :
  forall a b, gt (compare a b) (Fin 0) = Rltb (key a) (key b).

Lemma sort_insert_by_key (x : A) (l : list A) :
  StronglySorted (fun a b => key a >= key b) l ->
  StronglySorted (fun a b => key a >= key b) (sort_insert compare x l).
Proof.
  intros Hs. induction l as [| y l IH]; cbn [sort_insert].
  - constructor; constructor.
  - inversion Hs as [| ? ? Hs' Hall]; subst.
    rewrite compare_key. unfold Rltb.
    destruct (Rlt_dec (key x) (key y)) as [Hlt | Hge].
    + constructor; [now apply IH |].
      eapply Permutation_Forall; [symmetry; apply sort_insert_perm |].
      constructor; [lra | exact Hall].
    + constructor; [exact Hs |].
      constructor; [lra |].
      eapply Forall_impl; [| exact Hall]. intros z Hz; simpl in Hz. lra.
Qed.

Lemma Array_sort_by_key (l : list A) :
  StronglySorted (fun a b => key a >= key b) (Array_sort compare l).
Proof.
  induction l as [| x l IH]; cbn [Array_sort]; [constructor |].
  now apply sort_insert_by_key.
Qed.

Lemma sort_insert_stable_key (v : R) (x : A) (l : list A) :
  filter (fun a => Reqb (key a) v) (sort_insert compare x l)
  = filter (fun a => Reqb (key a) v) (x :: l).
Proof.
  induction l as [| y l IH]; [reflexivity |].
  cbn [sort_insert]. rewrite compare_key. unfold Rltb.
  destruct (Rlt_dec (key x) (key y)) as [Hlt | Hge]; [| reflexivity].
  cbn [filter] in *. rewrite IH. unfold Reqb.
  destruct (Req_dec_T (key x) v), (Req_dec_T (key y) v); try reflexivity.
  exfalso; lra.
Qed.

Lemma Array_sort_stable_key (v : R) (l : list A) :
  filter (fun a => Reqb (key a) v) (Array_sort compare l)
  = filter (fun a => Reqb (key a) v) l.
Proof.
  induction l as [| x l IH]; [reflexivity |].
  cbn [Array_sort]. rewrite sort_insert_stable_key.
  cbn [filter]. now rewrite IH.
Qed.

Lemma filter_head_split (f : A -> bool) (l : list A) (x : A) (r : list A) :
  filter f l = x :: r ->
  exists pre post, l = (pre ++ x :: post)%list /\
                   Forall (fun a => f a = false) pre.
Proof.
  induction l as [| y l IH]; cbn [filter]; [discriminate |].
  destruct (f y) eqn:E.
  - intros H. injection H as -> _. exists [], l. split; [reflexivity |].
    constructor.
  - intros H. destruct (IH H) as [pre [post [-> Hpre]]].
    exists (y :: pre), post. split; [reflexivity | now constructor].
Qed.

(** The head of the sorted array is the first element of the input whose
    key is the greatest. *)
Lemma Array_sort_head (l : list A) (best : A) (rest : list A) :
  Array_sort compare l = best :: rest ->
  exists pre post,
    l = (pre ++ best :: post)%list /\
    Forall (fun a => key a < key best) pre /\
    Forall (fun a => key a <= key best) post.
Proof.
  intros Hsort.
  pose proof (Array_sort_by_key l) as Hs. rewrite Hsort in Hs.
  inversion Hs as [| ? ? _ Hall]; subst.
  assert (Hmax : forall a, In a l -> key a <= key best).
  { intros a Ha.
    apply (Permutation_in _ (Permutation_sym (Array_sort_perm compare l)))
      in Ha.
    rewrite Hsort in Ha. destruct Ha as [<- | Ha]; [lra |].
    rewrite Forall_forall in Hall. specialize (Hall a Ha). lra. }
  pose proof (Array_sort_stable_key (key best) l) as Hst.
  rewrite Hsort in Hst. cbn [filter] in Hst.
  unfold Reqb at 1 in Hst.
  destruct (Req_dec_T (key best) (key best)); [| congruence].
  symmetry in Hst. destruct (filter_head_split _ _ _ _ Hst)
    as [pre [post [-> Hpre]]].
  exists pre, post. split; [reflexivity |]. split.
  - rewrite Forall_forall in *. intros a Ha.
    specialize (Hpre a Ha). unfold Reqb in Hpre.
    destruct (Req_dec_T (key a) (key best)); [discriminate |].
    assert (key a <= key best)
      by (apply Hmax, in_or_app; now left).
    lra.
  - rewrite Forall_forall. intros a Ha.
    apply Hmax, in_or_app. right. now right.
Qed.

End KeySort.

(** ** Registering a domain *)

Lemma by_score_key (a b : Registry.check) :
  gt (Registry.by_score a b) (Fin 0)
  = Rltb (Q2R (Registry.score a)) (Q2R (Registry.score b)).
Proof.
  unfold Registry.by_score. num_simpl. r_cases; reflexivity.
Qed.

Lemma available_checks (r : Registry.registrar) (options : list string) :
  filter Registry.available (map (Registry.check_of r) options)
  = map (Registry.check_of r)
        (filter (Registry.checkDomainAvailability r) options).
Proof.
  induction options as [| d options IH]; cbn; [reflexivity |].
  destruct (Registry.checkDomainAvailability r d); cbn; now rewrite IH.
Qed.

(** The head of [availableDomains]: an option whose availability check
    resolved to true, scored by [scoreDomain], ahead of which no
    available option scores as much and after which none scores more. *)
Lemma availableDomains_head (r : Registry.registrar) (options : list string)
    (best : Registry.check) (rest : list Registry.check) :
  Registry.availableDomains r options = best :: rest ->
  exists pre post,
    filter (Registry.checkDomainAvailability r) options
    = (pre ++ Registry.domain best :: post)%list /\
    Registry.checkDomainAvailability r (Registry.domain best) = true /\
    Registry.score best = Domain.scoreDomain (Registry.domain best) /\
    Forall (fun d => (Domain.scoreDomain d
                      < Domain.scoreDomain (Registry.domain best))%Q) pre /\
    Forall (fun d => (Domain.scoreDomain d
                      <= Domain.scoreDomain (Registry.domain best))%Q) post.
Proof.
  unfold Registry.availableDomains. rewrite available_checks. intros H.
  destruct (Array_sort_head Registry.by_score
              (fun c => Q2R (Registry.score c)) by_score_key _ _ _ H)
    as [pre [post [E [Hpre Hpost]]]].
  set (free := filter (Registry.checkDomainAvailability r) options) in *.
  assert (Hfree : forall d, In d free ->
            Registry.score (Registry.check_of r d) = Domain.scoreDomain d /\
            Registry.checkDomainAvailability r d = true).
  { intros d Hd. apply filter_In in Hd. destruct Hd as [_ Hd].
    unfold Registry.check_of. cbn. now rewrite Hd. }
  apply map_eq_app in E. destruct E as [pre' [l2 [Ef [Ep E2]]]].
  apply map_eq_cons in E2. destruct E2 as [d [post' [El2 [Eb Epost]]]].
  subst l2. exists pre', post'.
  assert (Hd : In d free) by (rewrite Ef; apply in_or_app; right; now left).
  destruct (Hfree d Hd) as [Hsc Hav].
  assert (Edom : Registry.domain best = d) by (now rewrite <- Eb).
  assert (Escore : Registry.score best = Domain.scoreDomain d)
    by (now rewrite <- Eb).
  rewrite Edom. split; [exact Ef |]. split; [exact Hav |].
  split; [exact Escore |]. split.
  - rewrite Forall_forall in *. intros x Hx.
    assert (Hxf : In x free) by (rewrite Ef; apply in_or_app; now left).
    specialize (Hpre (Registry.check_of r x)).
    rewrite <- Ep in Hpre. specialize (Hpre (in_map _ _ _ Hx)).
    destruct (Hfree x Hxf) as [Hs _]. rewrite Hs, Escore in Hpre.
    now apply Rlt_Qlt.
  - rewrite Forall_forall in *. intros x Hx.
    assert (Hxf : In x free)
      by (rewrite Ef; apply in_or_app; right; now right).
    specialize (Hpost (Registry.check_of r x)).
    rewrite <- Epost in Hpost. specialize (Hpost (in_map _ _ _ Hx)).
    destruct (Hfree x Hxf) as [Hs _]. rewrite Hs, Escore in Hpost.
    now apply Rle_Qle.
Qed.



(** X24.  When none of the generated options is available, be it that the
    registrar says so or that the check failed, [registerDomain] reports
    'No available domains found' and sends nothing but the availability
    checks: no registration is attempted. *)
Theorem registerDomain_none_available (r : Registry.registrar) (n : niche)
    (p : Registry.preferences) (related options : list string) :
  related_keywords n = Some related ->
  Registry.generateDomainOptions (Registry.random r)
    (niche_name n :: firstn 5 related) p = Returned options ->
  (forall d, In d options -> Registry.checkDomainAvailability r d = false) ->
  Registry.registerDomain r n p
    = (Registry.NotRegistered "No available domains found" None None,
       map check_request options).
Proof.
  intros Hr Hg Hnone. unfold Registry.registerDomain, take.
  rewrite Hr, Hg. unfold Registry.availableDomains.
  rewrite available_checks.
  assert (Hf : filter (Registry.checkDomainAvailability r) options = []).
  { clear Hg. induction options as [| d options IH]; [reflexivity |].
    cbn [filter]. rewrite (Hnone d (or_introl eq_refl)).
    apply IH. intros d' Hd'. apply Hnone. now right. }
  now rewrite Hf.
Qed.

Lemma registerDomain_none_available_witness :
  Registry.registerDomain (registrar_with (fun _ _ => false)) hydroponics
    com_only
    = (Registry.NotRegistered "No available domains found" None None,
       map check_request
         ["hydroponics.com"; "besthydroponics.com"; "tophydroponics.com";
          "myhydroponics.com"; "thehydroponics.com"; "hydroponicsguide.com";
          "hydroponicshub.com"; "hydroponicspro.com";
          "hydroponicsexpert.com"; "hydroponicshq.com"]).
Proof.
  apply (registerDomain_none_available (registrar_with (fun _ _ => false))
           hydroponics com_only []).
  - reflexivity.
  - vm_compute. reflexivity.
  - intros d _. reflexivity.
Defined.

(** X25.  The requests of [registerDomain] follow one protocol: availability
    checks first; then at most one registration, for a domain whose check
    resolved to true; then the DNS zone of that same domain, only if the
    registrar reported success.  Success is reported only when the zone
    was created too: when the zone fails after the registrar accepted the
    registration, the caller gets a failure for a domain that has been
    registered. *)
Theorem registerDomain_protocol (r : Registry.registrar) (n : niche)
    (p : Registry.preferences) :
  exists checks tail,
    snd (Registry.registerDomain r n p) = (checks ++ tail)%list /\
    Forall is_check checks /\
    ((tail = [] /\
      forall d a b c e f,
        fst (Registry.registerDomain r n p)
        <> Registry.Registered d a b c e f) \/
     exists d,
       Registry.checkDomainAvailability r d = true /\
       ((tail = [register_request d] /\
         (forall reg,
            Registry.register r (Registry.name_part d) (Registry.tld_part d)
            = Resolved reg -> Registry.reg_success reg = false) /\
         exists e a,
           fst (Registry.registerDomain r n p)
           = Registry.NotRegistered e a
               (match Registry.register r (Registry.name_part d)
                        (Registry.tld_part d) with
                | Rejected m => Some m
                | Resolved _ => None
                end)) \/
        (tail = [register_request d; Registry.AddZone d] /\
         (exists reg,
            Registry.register r (Registry.name_part d) (Registry.tld_part d)
            = Resolved reg /\ Registry.reg_success reg = true) /\
         match Registry.addZone r d with
         | Resolved _ =>
             exists a b c e f,
               fst (Registry.registerDomain r n p)
               = Registry.Registered d a b c e f
         | Rejected m =>
             fst (Registry.registerDomain r n p)
             = Registry.NotRegistered
                 ("Domain registration error: " ++ m) None (Some m)
         end))).
Proof.
  unfold Registry.registerDomain, take.
  destruct (related_keywords n) as [related |].
  2:{ exists [], []. repeat split; [constructor |]. left.
      split; [reflexivity | discriminate]. }
  destruct (Registry.generateDomainOptions (Registry.random r)
              (niche_name n :: firstn 5 related) p) as [options | e].
  2:{ exists [], []. repeat split; [constructor |]. left.
      split; [reflexivity | discriminate]. }
  assert (Hchecks : forall l : list string,
            Forall is_check
              (map (fun d => Registry.CheckAvailability
                               (Registry.name_part d) (Registry.tld_part d))
                   l)).
  { intros l. rewrite Forall_forall. intros q Hq.
    apply in_map_iff in Hq. destruct Hq as [d [<- _]].
    unfold is_check. eauto. }
  destruct (Registry.availableDomains r options) as [| best rest] eqn:Ea.
  { eexists _, []. rewrite app_nil_r. cbn [fst snd].
    split; [reflexivity |]. split; [apply Hchecks |]. left.
    split; [reflexivity | discriminate]. }
  destruct (availableDomains_head _ _ _ _ Ea) as [_ [_ [_ [Hav _]]]].
  set (d := Registry.domain best) in *.
  destruct (Registry.register r (Registry.name_part d)
              (Registry.tld_part d)) as [msg | reg] eqn:Er.
  { eexists _, _. cbn [fst snd]. split; [reflexivity |].
    split; [apply Hchecks |]. right. exists d. split; [exact Hav |]. left.
    rewrite Er. split; [reflexivity |].
    split; [intros reg Hreg; discriminate Hreg |]. eauto. }
  destruct (Registry.reg_success reg) eqn:Es.
  - destruct (Registry.addZone r d) as [msg | u] eqn:Ez;
      eexists _, _; cbn [fst snd]; (split; [reflexivity |]);
      (split; [apply Hchecks |]); right; exists d;
      (split; [exact Hav |]); right; rewrite Er, Ez;
      (split; [reflexivity |]); (split; [now exists reg |]).
    + reflexivity.
    + repeat eexists.
  - eexists _, _. cbn [fst snd]. split; [reflexivity |].
    split; [apply Hchecks |]. right. exists d. split; [exact Hav |]. left.
    rewrite Er. split; [reflexivity |]. split.
    + intros reg' H. injection H as <-. exact Es.
    + eauto.
Qed.

(* ================================================================= *)
(** * The [analyze] command *)

Lemma split_comma_length (text : string) :
  List.length (Cli.split_comma text) = S (commas text).
Proof.
  unfold commas. induction text as [| c text IH]; [reflexivity |].
  cbn [Cli.split_comma list_ascii_of_string count_occ].
  destruct (Ascii.eqb_spec c ","%char) as [-> | Hc].
  - destruct (ascii_dec "," ","); [| congruence].
    cbn [List.length]. now rewrite IH.
  - destruct (ascii_dec c ","); [congruence |].
    destruct (Cli.split_comma text) as [| part parts]; [discriminate IH |].
    exact IH.
Qed.

Lemma split_comma_parts (text : string) :
  Forall (fun k => ~ In ","%char (list_ascii_of_string k))
    (Cli.split_comma text).
Proof.
  induction text as [| c text IH]; cbn [Cli.split_comma].
  - constructor; [intros [] | constructor].
  - destruct (Ascii.eqb_spec c ","%char) as [-> | Hc].
    + constructor; [intros [] | exact IH].
    + destruct (Cli.split_comma text) as [| part parts].
      * constructor; [| constructor]. cbn. intros [E | []]. congruence.
      * inversion IH as [| ? ? Hpart Hparts]; subst.
        constructor; [| exact Hparts].
        cbn [list_ascii_of_string]. intros [E | Hin]; [congruence | tauto].
Qed.

Lemma trim_passed_on (k : string) :
  ~ In ","%char (list_ascii_of_string k) -> passed_on (Cli.trim k).
Proof.
  intros Hk. unfold passed_on, Cli.trim.
  rewrite list_ascii_of_string_of_list_ascii.
  split; [| apply trim_ends].
  intros Hin. apply Hk. now apply trim_incl.
Qed.

Lemma keywords_of_text (o : Cli.options) (text : string) :
  Cli.keywords o = Some text -> text <> EmptyString ->
  Cli.keywords_of o = map Cli.trim (Cli.split_comma text).
Proof.
  intros E Hne. unfold Cli.keywords_of. rewrite E.
  destruct text; [congruence | reflexivity].
Qed.

Lemma analyzeNiche_with_keywords (w : world) (o : request) (k : string)
    (ks : list string) (s : state) :
  keywords o = KeywordsArray (k :: ks) ->
  exists r s', analyzeNiche w (Some o) s = (Returned r, s') /\
               r <> no_keywords.
Proof.
  intros E. unfold analyzeNiche, try_catch, analyzeNiche_body. rewrite E.
  match goal with
  | |- context [match ?m s with _ => _ end] =>
      destruct (m s) as [[r | e] s1] eqn:Hrun
  end.
  - exists r, s1. split; [reflexivity |].
    revert Hrun. unfold bind at 1.
    destruct (analysis w (k :: ks) (limit_or_default o)
                (preferences_or_default o) s)
      as [[[valid [filtered |]] | e] s0]; try discriminate.
    + unfold bind at 1.
      match goal with
      | |- context [(if ?c then _ else _) s0] =>
          destruct ((if c then saveAnalysisResults w filtered
                     else ret tt) s0) as [[[] | e] s2]
      end; try discriminate.
      unfold bind at 1.
      destruct (mapM present filtered s2) as [[recs | e] s3];
        try discriminate.
      cbn. intros H. injection H as <- _. discriminate.
    + cbn. intros H. injection H as <- _. discriminate.
  - eexists _, _. split; [reflexivity |]. discriminate.
Qed.

(** X26.  The [analyze] command asks for no analysis of nothing: without
    [--keywords], or with an empty one, [analyzeNiche] gets the empty array
    and answers 'No keywords provided for niche analysis' without a single
    request.  With any other text it gets one keyword more than the text
    has commas, each without a comma and without white space at either
    end, and never gives that answer: a keyword that is blank, as both
    are for [--keywords ,], is analysed like any other. *)
Theorem analyze_command_keywords (w : world) (o : Cli.options) (s : state) :
  (Cli.keywords o = None \/ Cli.keywords o = Some EmptyString ->
   analyze w o s = (Returned no_keywords, s)) /\
  (forall text,
     Cli.keywords o = Some text -> text <> EmptyString ->
     List.length (Cli.keywords_of o) = S (commas text) /\
     Forall passed_on (Cli.keywords_of o) /\
     exists r s', analyze w o s = (Returned r, s') /\ r <> no_keywords).
Proof.
  split.
  - intros H. unfold analyze, analyzeNiche, try_catch, analyzeNiche_body.
    unfold analyze_request at 1. cbn [keywords].
    unfold Cli.keywords_of. now destruct H as [-> | ->].
  - intros text E Hne. rewrite (keywords_of_text o text E Hne).
    split; [| split].
    + rewrite length_map. apply split_comma_length.
    + apply Forall_map. eapply Forall_impl; [| apply split_comma_parts].
      intros k. apply trim_passed_on.
    + pose proof (split_comma_length text) as Hlen.
      destruct (Cli.split_comma text) as [| k ks] eqn:Es;
        [discriminate Hlen |].
      apply (analyzeNiche_with_keywords w (analyze_request o)
               (Cli.trim k) (map Cli.trim ks)).
      unfold analyze_request. cbn [keywords].
      now rewrite (keywords_of_text o text E Hne), Es.
Qed.

(** X27.  The limit the [analyze] command passes on is never zero: a missing
    [--limit], one that did not parse and [--limit 0] all ask for five
    recommendations, so that a successful analysis returns at most five
    there, and at most [n] under [--limit n] for a positive [n].  The
    response never carries the keyword data. *)
Theorem analyze_command_limit (w : world) (o : Cli.options) (s s' : state)
    (timestamp : string) (recs : list Rec.t)
    (kd : option (list keyword_summary)) :
  analyze w o s = (Returned (Success timestamp recs kd), s') ->
  kd = None /\
  (forall n, Cli.limit o = Some (Cli.Integer n) -> (0 < n)%Z ->
             (List.length recs <= Z.to_nat n)%nat) /\
  (Cli.limit o = None \/ Cli.limit o = Some Cli.NotANumber \/
   Cli.limit o = Some (Cli.Integer 0) ->
   (List.length recs <= 5)%nat).
Proof.
  intros H. unfold analyze in H.
  assert (Hlen : (0 <= Cli.limit_of o)%Z ->
                 (List.length recs <= Z.to_nat (Cli.limit_of o))%nat).
  { intros Hpos.
    destruct (success_inversion _ _ _ _ _ _ _ H) as [sc [_ F]].
    rewrite <- (Forall2_length F). unfold filterNiches.
    rewrite slice0_nonneg by exact Hpos. apply firstn_length_le. }
  split; [| split].
  - revert H. unfold analyzeNiche, try_catch, analyzeNiche_body.
    destruct (keywords (analyze_request o)) as [| | | [| k ks]];
      try discriminate.
    match goal with
    | |- context [match ?m s with _ => _ end] =>
        destruct (m s) as [[r | e] s1] eqn:Hrun
    end; [| discriminate].
    intros Hr. injection Hr as -> _. revert Hrun. unfold bind at 1.
    destruct (analysis w (k :: ks) (limit_or_default (analyze_request o))
                (preferences_or_default (analyze_request o)) s)
      as [[[valid [filtered |]] | e] s0]; try discriminate.
    unfold bind at 1.
    match goal with
    | |- context [(if ?c then _ else _) s0] =>
        destruct ((if c then saveAnalysisResults w filtered
                   else ret tt) s0) as [[[] | e] s2]
    end; try discriminate.
    unfold bind at 1.
    destruct (mapM present filtered s2) as [[recs' | e] s3];
      try discriminate.
    cbn. intros Hs. now injection Hs as _ _ <-.
  - intros n E Hn. unfold Cli.limit_of in Hlen. rewrite E in Hlen.
    destruct (Z.eqb_spec n 0); [lia |]. apply Hlen. lia.
  - intros E. unfold Cli.limit_of in Hlen.
    destruct E as [E | [E | E]]; rewrite E in Hlen; cbn in Hlen;
      apply Hlen; lia.
Qed.

Lemma analyze_command_limit_witness :
  @None (list keyword_summary) = None /\
  (forall n, Cli.limit hydroponics_options = Some (Cli.Integer n) ->
             (0 < n)%Z ->
             (List.length [entry planner_scored ["hydroponics"]]
              <= Z.to_nat n)%nat) /\
  (Cli.limit hydroponics_options = None \/
   Cli.limit hydroponics_options = Some Cli.NotANumber \/
   Cli.limit hydroponics_options = Some (Cli.Integer 0) ->
   (List.length [entry planner_scored ["hydroponics"]] <= 5)%nat).
Proof.
  apply (analyze_command_limit planner_only hydroponics_options initial
           planner_only_final (now planner_only)
           [entry planner_scored ["hydroponics"]] None).
  exact planner_only_run.
Defined.
